(** * The query-stats cron job (src/pages/api/cron/query-stats.ts)

    A shallow embedding of the anonymisation job: the token estimate and the
    greedy trim ([trimQueries]), the per-project driver
    ([processProjectQueryStats]) and the HTTP [handler].

    Conventions.
    - A JavaScript [number] is a rational ([Q]): the job only adds token
      estimates and compares them with half a cutoff. Counts of entries are
      natural numbers.
    - A JavaScript string is a [string]; its characters stand for UTF-16
      code units, none of them half of a surrogate pair.
    - The awaited calls to the outside (the Supabase client, the completions
      endpoint, the project configuration, the metering sink) are the
      constructors of [call]; an asynchronous function is a tree of such
      calls ([prog]), and an execution against an arbitrary environment
      yields the transcript of the calls made with the answers received, the
      final state of the environment and the outcome ([run]).
    - The answers of the outside have the shape their clients document: a
      Supabase call resolves to its data or error, and the body of a
      completions answer carries [error] or [usage] and the completion. The
      request may reject. The completion text itself is whatever the model
      wrote: [JSON.parse] of it may raise or return any JSON value.
    - Console output is not modelled; the two property reads that sit in
      logging statements and can raise ([.length] of the parsed value, [.id]
      of an entry) are. *)

From Stdlib Require Import List String Ascii Bool Arith QArith Lqa Lia.
Import ListNotations.
Local Open Scope string_scope.
Local Open Scope Q_scope.
Set Warnings "-register-all".

(** ** JavaScript values *)

(** The values [JSON.parse] produces, and [undefined] for an absent member. *)
Inductive jsval : Type :=
| JUndefined
| JNull
| JBool (b : bool)
| JNum (n : Q)
| JStr (s : string)
| JArr (items : list jsval)
| JObj (members : list (string * jsval)).

(** [if (v)]: undefined, null, false, 0 and the empty string are falsy. *)
Definition truthy (v : jsval) : bool :=
  match v with
  | JUndefined | JNull => false
  | JBool b => b
  | JNum n => negb (Qeq_bool n 0)
  | JStr s => negb (String.eqb s "")
  | JArr _ | JObj _ => true
  end.

Fixpoint lookup_member (k : string) (members : list (string * jsval)) : jsval :=
  match members with
  | [] => JUndefined
  | (k', v) :: rest => if String.eqb k k' then v else lookup_member k rest
  end.

(** What can be raised and is not a value. *)
Inductive exn : Type :=
| TypeError
| SyntaxError
| NetworkError.

Inductive outcome (A : Type) : Type :=
| Returned (a : A)
| Raised (e : exn).
Arguments Returned {A} a.
Arguments Raised {A} e.

(** [v.k] for one of the member names the job reads ([id], [prompt],
    [response]): reading a member of null or undefined raises; primitives,
    strings and arrays have no such member. *)
Definition get_member (v : jsval) (k : string) : outcome jsval :=
  match v with
  | JUndefined | JNull => Raised TypeError
  | JObj members => Returned (lookup_member k members)
  | _ => Returned JUndefined
  end.

(** The same read where it cannot raise. *)
Definition member (v : jsval) (k : string) : jsval :=
  match v with
  | JObj members => lookup_member k members
  | _ => JUndefined
  end.

Definition nullish (v : jsval) : bool :=
  match v with
  | JUndefined | JNull => true
  | _ => false
  end.

(** [v.length], where the job returns it: the length of an array or of a
    string. Reading it from null raises. Other values are not iterable, so
    the job never returns their [length]. *)
Definition length_member (v : jsval) : outcome nat :=
  match v with
  | JUndefined | JNull => Raised TypeError
  | JArr items => Returned (List.length items)
  | JStr s => Returned (String.length s)
  | _ => Returned 0%nat
  end.

(** [for (const entry of v)]: the items of an array, the characters of a
    string; nothing else that [JSON.parse] returns is iterable. *)
Definition iterate (v : jsval) : outcome (list jsval) :=
  match v with
  | JArr items => Returned items
  | JStr s => Returned (map (fun c => JStr (String c "")) (list_ascii_of_string s))
  | _ => Raised TypeError
  end.

(** [.filter(isPresent)], with [isPresent] of ts-is-present: what is neither
    undefined nor null is kept, at the narrowed type. *)
Fixpoint filter_isPresent {A : Type} (l : list (option A)) : list A :=
  match l with
  | [] => []
  | Some a :: rest => a :: filter_isPresent rest
  | None :: rest => filter_isPresent rest
  end.

(** ** Data *)

Record QueryStatData : Type := {
  id : string;
  prompt : option string;
  response : option string;
}.

Record OpenAIModelIdWithType : Type := {
  type : string;
  value : string;
}.

(** The body of a completions answer, as far as the job reads it:
    [json.error] and [json.usage.total_tokens]; [body] is the whole of it,
    handed to [getCompletionsResponseText]. *)
Record CompletionsJson : Type := {
  error : jsval;
  usage_total_tokens : jsval;
  body : jsval;
}.

(** What the job imports from modules of the repository that are not part of
    the file: a constant of [@/lib/constants] and helpers of [@/lib/utils],
    [@/lib/utils.edge] and [@/types/types]. *)
Class Imports : Type := {
  CONTEXT_TOKENS_CUTOFF_GPT_3_5_TURBO : Q;
  approximatedTokenCount : string -> Q;
  getCompletionsUrl : OpenAIModelIdWithType -> string;
  getCompletionsResponseText : CompletionsJson -> OpenAIModelIdWithType -> string;
  safeParseInt : jsval -> Q -> Q;
  geLLMInfoFromModel : OpenAIModelIdWithType -> string;
}.

(** The built-ins the job calls: [JSON.stringify] of one record, of a list
    of records with an indentation of 2, [JSON.parse] ([None] when it raises
    a SyntaxError) and the process environment. *)
Class Runtime : Type := {
  JSON_stringify : QueryStatData -> string;
  JSON_stringify_indent2 : list QueryStatData -> string;
  JSON_parse : string -> option jsval;
  OPENAI_API_KEY : option string;
}.

(** ** Calls to the outside *)

Inductive table : Type :=
| query_stats
| v_distinct_unprocessed_query_stats_project_ids.

(** The filters of the Supabase query builder that the job uses:
    [.match({...})], [.in(column, values)] and [.eq(column, value)]. *)
Inductive filter : Type :=
| FMatch (query : list (string * jsval))
| FIn (column : string) (values : list string)
| FEq (column : string) (v : jsval).

(** The rows a [select] returns: [id,prompt,response] of [query_stats],
    [project_id] (nullable) of the view. *)
Definition selected (from : table) : Type :=
  match from with
  | query_stats => QueryStatData
  | v_distinct_unprocessed_query_stats_project_ids => option string
  end.

Record Payload : Type := {
  model : string;
  temperature : Q;
  top_p : Q;
  frequency_penalty : Q;
  presence_penalty : Q;
  max_tokens : Q;
  stream : bool;
  n : Q;
  messages : list (string * string);
}.

(** The awaited calls. [Fetch] is the POST of [JSON.stringify(payload)] with
    the given [Authorization] header, followed by [res.json()]. *)
Inductive call : Type :=
| SupabaseSelect (from : table) (columns : string) (filters : list filter) (limit : nat)
| SupabaseDelete (from : table) (filters : list filter)
| SupabaseUpdate (from : table) (values : list (string * jsval)) (filters : list filter)
| GetProjectConfigData (projectId : string)
| Fetch (url : string) (authorization : string) (payload : Payload)
| RecordProjectTokenCount (projectId : string) (llmInfo : string) (tokenCount : Q)
    (source : string).

(** What a call answers: [data] (or null) of a select, [error] (or null) of a
    delete and of an update, [byoOpenAIKey] of the configuration, the parsed
    body of the completions answer unless the request or [res.json()]
    rejects. *)
Definition resp (c : call) : Type :=
  match c with
  | SupabaseSelect from _ _ _ => option (list (selected from))
  | SupabaseDelete _ _ => option string
  | SupabaseUpdate _ _ _ => option string
  | GetProjectConfigData _ => option string
  | Fetch _ _ _ => outcome CompletionsJson
  | RecordProjectTokenCount _ _ _ _ => unit
  end.

(** An asynchronous function: it returns, raises, or awaits a call and goes
    on with the answer. *)
Inductive prog (A : Type) : Type :=
| Ret (a : A)
| Throw (e : exn)
| Do (c : call) (k : resp c -> prog A).
Arguments Ret {A} a.
Arguments Throw {A} e.
Arguments Do {A} c k.

Fixpoint bind {A B : Type} (p : prog A) (f : A -> prog B) : prog B :=
  match p with
  | Ret a => f a
  | Throw e => Throw e
  | Do c k => Do c (fun r => bind (k r) f)
  end.

Notation "x <- p ;; q" := (bind p (fun x => q))
  (at level 100, p at next level, right associativity).
Notation "p ;; q" := (bind p (fun _ => q))
  (at level 100, right associativity).

Definition await (c : call) : prog (resp c) := Do c Ret.

Definition lift {A : Type} (o : outcome A) : prog A :=
  match o with
  | Returned a => Ret a
  | Raised e => Throw e
  end.

(** [try { p } catch { h }]. *)
Fixpoint try_catch {A : Type} (p : prog A) (h : prog A) : prog A :=
  match p with
  | Ret a => Ret a
  | Throw _ => h
  | Do c k => Do c (fun r => try_catch (k r) h)
  end.

(** ** Executions *)

(** A call with the answer it received. *)
Inductive event : Type :=
| Event (c : call) (r : resp c).

Definition call_of (e : event) : call :=
  match e with Event c _ => c end.

(** An environment answers each call from its state. *)
Definition env (S : Type) : Type := forall c : call, S -> resp c * S.

(** The transcript, the final state of the environment and the outcome. *)
Fixpoint run {S A : Type} (world : env S) (p : prog A) (s : S)
    : list event * S * outcome A :=
  match p with
  | Ret a => ([], s, Returned a)
  | Throw e => ([], s, Raised e)
  | Do c k =>
      let (r, s1) := world c s in
      let '(t, s2, o) := run world (k r) s1 in
      (Event c r :: t, s2, o)
  end.

Definition transcript {S A : Type} (world : env S) (p : prog A) (s : S) : list event :=
  fst (fst (run world p s)).

Definition final_state {S A : Type} (world : env S) (p : prog A) (s : S) : S :=
  snd (fst (run world p s)).

Definition result {S A : Type} (world : env S) (p : prog A) (s : S) : outcome A :=
  snd (run world p s).

(** The answer of the completions endpoint and of a select on
    [query_stats], when the event is such a call. *)
Definition fetch_answer (e : event) : option (outcome CompletionsJson) :=
  match e with
  | Event (Fetch _ _ _) r => Some r
  | _ => None
  end.

Definition select_answer (e : event) : option (option (list QueryStatData)) :=
  match e with
  | Event (SupabaseSelect query_stats _ _ _) r => Some r
  | _ => None
  end.

Definition is_fetch (c : call) : bool :=
  match c with Fetch _ _ _ => true | _ => false end.

Definition is_update (c : call) : bool :=
  match c with SupabaseUpdate _ _ _ => true | _ => false end.

Definition is_delete (c : call) : bool :=
  match c with SupabaseDelete _ _ => true | _ => false end.

Definition calls (t : list event) : list call := map call_of t.

(** The updates of a transcript, in the order they were issued. *)
Definition updates_of (t : list event) : list call :=
  List.filter is_update (calls t).

(** ** The HTTP request and response *)

(** [req.method] and [req.query.projectId], the latter read as a string, as
    the cast of the handler does. *)
Record NextApiRequest : Type := {
  method : option string;
  query_projectId : option string;
}.

Module Data.
Record t : Type := {
  status : option string;
  processed : option nat;
  error : option string;
}.
End Data.

(** What the handler has done to [res] when it returns: the headers set, the
    status and the body sent. *)
Record NextApiResponse : Type := {
  headers : list (string * list string);
  statusCode : nat;
  sent : Data.t;
}.

Definition allowedMethods : list string := ["GET"].

Definition includes (l : list string) (s : string) : bool :=
  existsb (String.eqb s) l.

(** A string in an [if]: absent and empty are falsy. *)
Definition present (s : option string) : bool :=
  match s with
  | Some s => negb (String.eqb s "")
  | None => false
  end.

Section Job.

Context {imports : Imports} {runtime : Runtime}.

(** ** The token estimate and the greedy trim *)

Definition estimateQueryTokenCount (query : QueryStatData) : Q :=
  approximatedTokenCount (JSON_stringify query).

(** The [for] loop of [trimQueries], from the state ([tokenCount],
    [trimmedQueries]) it has reached; [break] returns the batch built so far. *)
Fixpoint trimQueries_for (queries : list QueryStatData) (maxTokens : Q)
    (tokenCount : Q) (trimmedQueries : list QueryStatData) : list QueryStatData :=
  match queries with
  | [] => trimmedQueries
  | query :: rest =>
      let tokenCount := tokenCount + estimateQueryTokenCount query in
      if Qle_bool maxTokens tokenCount
      then trimmedQueries
      else trimQueries_for rest maxTokens tokenCount (trimmedQueries ++ [query])
  end.

Definition trimQueries (queries : list QueryStatData) (maxTokens : Q)
    : list QueryStatData :=
  trimQueries_for queries maxTokens 0 [].

(** [const maxTokens = CONTEXT_TOKENS_CUTOFF_GPT_3_5_TURBO * 0.5]. *)
Definition maxTokens : Q := CONTEXT_TOKENS_CUTOFF_GPT_3_5_TURBO * (1 # 2).

(** The running total after the records of [l], from [tokenCount]. *)
Definition running_total (tokenCount : Q) (l : list QueryStatData) : Q :=
  fold_left (fun t q => t + estimateQueryTokenCount q) l tokenCount.

Definition total_cost (l : list QueryStatData) : Q := running_total 0 l.

(** Every addition keeps the running total below the budget: the total of
    each non-empty prefix of [l] is below [budget]. *)
Definition stays_below (l : list QueryStatData) (budget : Q) : Prop :=
  forall j, (1 <= j <= List.length l)%nat -> total_cost (firstn j l) < budget.

(** [batch] is the longest prefix of [l] whose running total stays below
    [budget]. *)
Definition longest_prefix_below (batch l : list QueryStatData) (budget : Q) : Prop :=
  (exists k, batch = firstn k l) /\
  stays_below batch budget /\
  (forall k, (k <= List.length l)%nat -> stays_below (firstn k l) budget ->
             (k <= List.length batch)%nat).

(** The test of the overflow eviction, [estimateQueryTokenCount(q) > maxTokens]. *)
Definition overflowing (budget : Q) (q : QueryStatData) : bool :=
  negb (Qle_bool (estimateQueryTokenCount q) budget).

(** The records that remain once the overflowing ones are set aside. *)
Definition remaining (budget : Q) (queries : list QueryStatData) : list QueryStatData :=
  List.filter (fun q => negb (overflowing budget q)) queries.

(** ** The driver *)

Definition newline : string := String (ascii_of_nat 10) "".

(** [a || b] on possibly absent strings, and [a ?? ''] . *)
Definition or_else (a b : option string) : option string :=
  match a with
  | Some s => if String.eqb s "" then b else a
  | None => b
  end.

Definition nullish_empty (a : option string) : string :=
  match a with Some s => s | None => "" end.

(** The update of one parsed entry: the three values written and the row
    matched. *)
Definition update_of (entry_id entry_prompt entry_response : jsval) : call :=
  SupabaseUpdate query_stats
    [("processed", JBool true); ("prompt", entry_prompt); ("response", entry_response)]
    [FEq "id" entry_id].

(** [for (const entry of processedQueryStatData) { ... }]. *)
Fixpoint for_entries (entries : list jsval) : prog unit :=
  match entries with
  | [] => Ret tt
  | entry :: rest =>
      _ <- lift (get_member entry "id") ;;
      entry_prompt <- lift (get_member entry "prompt") ;;
      entry_response <- lift (get_member entry "response") ;;
      entry_id <- lift (get_member entry "id") ;;
      _ <- await (update_of entry_id entry_prompt entry_response) ;;
      for_entries rest
  end.

(** The update the loop issues for an entry that is neither null nor
    undefined. *)
Definition entry_update (entry : jsval) : call :=
  update_of (member entry "id") (member entry "prompt") (member entry "response").

(** The entries the loop reaches: those before the first null one. *)
Fixpoint before_nullish (entries : list jsval) : list jsval :=
  match entries with
  | [] => []
  | entry :: rest => if nullish entry then [] else entry :: before_nullish rest
  end.

(** Lines 167-195: the [try] block, its [catch], and the final [return 0]. *)
Definition parse_and_update (text : string) : prog nat :=
  try_catch
    (processedQueryStatData <-
       match JSON_parse text with
       | Some v => Ret v
       | None => Throw SyntaxError
       end ;;
     _ <- lift (length_member processedQueryStatData) ;;
     entries <- lift (iterate processedQueryStatData) ;;
     for_entries entries ;;
     lift (length_member processedQueryStatData))
    (Ret 0%nat).

(** Lines 99-105 and 116-126: the prompt around the batch, and the payload. *)
Definition prompt_for (trimmedQueries : list QueryStatData) : string :=
  "The following is a list of questions and responses in JSON format. Please keep the JSON, and don't touch the ids, but remove any personally identifiable information from the prompt and response entry:"
  ++ newline ++ newline ++ JSON_stringify_indent2 trimmedQueries
  ++ newline ++ newline ++ "Return as a JSON with the exact same structure.".

Definition payload_for (model : OpenAIModelIdWithType) (prompt : string) : Payload :=
  {| model := value model;
     temperature := 1 # 10;
     top_p := 1;
     frequency_penalty := 0;
     presence_penalty := 0;
     max_tokens := 2048;
     stream := false;
     n := 1;
     messages := [("user", prompt)] |}.

Definition gpt_3_5_turbo : OpenAIModelIdWithType :=
  {| type := "chat_completions"; value := "gpt-3.5-turbo" |}.

(** Lines 84-86: the ids of the fetched records that overflow on their own. *)
Definition overflowingQueryIds (queries : list QueryStatData) : list string :=
  filter_isPresent
    (map (fun q => if overflowing maxTokens q then Some (id q) else None) queries).

Definition processProjectQueryStats (projectId : string) : prog nat :=
  queries <- await (SupabaseSelect query_stats "id,prompt,response"
                      [FMatch [("project_id", JStr projectId); ("processed", JBool false)]]
                      10) ;;
  match queries with
  | None | Some [] => Ret 0%nat
  | Some queries =>
      (if (0 <? List.length (overflowingQueryIds queries))%nat
       then _ <- await (SupabaseDelete query_stats
                          [FIn "id" (overflowingQueryIds queries)]) ;;
            Ret tt
       else Ret tt) ;;
      let trimmedQueries := trimQueries queries maxTokens in
      let prompt := prompt_for trimmedQueries in
      let model := gpt_3_5_turbo in
      byoOpenAIKey <- await (GetProjectConfigData projectId) ;;
      let url := getCompletionsUrl model in
      let payload := payload_for model prompt in
      res <- await (Fetch url
                      ("Bearer " ++ nullish_empty (or_else byoOpenAIKey OPENAI_API_KEY))
                      payload) ;;
      json <- lift res ;;
      if truthy (error json) then Ret 0%nat
      else
        let tokenCount := safeParseInt (usage_total_tokens json) 0 in
        _ <- await (RecordProjectTokenCount projectId (geLLMInfoFromModel model)
                      tokenCount "query-stats") ;;
        let text := getCompletionsResponseText json model in
        parse_and_update text
  end.

(** The calls of the driver, by name. *)
Definition select_unprocessed (projectId : string) : call :=
  SupabaseSelect query_stats "id,prompt,response"
    [FMatch [("project_id", JStr projectId); ("processed", JBool false)]] 10.

Definition delete_overflowing (queries : list QueryStatData) : call :=
  SupabaseDelete query_stats [FIn "id" (overflowingQueryIds queries)].

Definition completions_request (byoOpenAIKey : option string)
    (trimmedQueries : list QueryStatData) : call :=
  Fetch (getCompletionsUrl gpt_3_5_turbo)
    ("Bearer " ++ nullish_empty (or_else byoOpenAIKey OPENAI_API_KEY))
    (payload_for gpt_3_5_turbo (prompt_for trimmedQueries)).

Definition record_usage (projectId : string) (json : CompletionsJson) : call :=
  RecordProjectTokenCount projectId (geLLMInfoFromModel gpt_3_5_turbo)
    (safeParseInt (usage_total_tokens json) 0) "query-stats".

(** The entries the loop of [parse_and_update] is run on: those of the
    parsed text when it parses to something iterable. *)
Definition parsed_entries (text : string) : option (list jsval) :=
  match JSON_parse text with
  | Some v =>
      match iterate v with
      | Returned entries => Some entries
      | Raised _ => None
      end
  | None => None
  end.

(** The completion text of an answer. *)
Definition completion_text (json : CompletionsJson) : string :=
  getCompletionsResponseText json gpt_3_5_turbo.

(** ** The shape of an execution *)

(** The eviction step: nothing when no fetched record overflows, one delete
    of the overflowing ids otherwise. *)
Definition evicted (queries : list QueryStatData) (eviction : list event) : Prop :=
  (overflowingQueryIds queries = [] /\ eviction = []) \/
  (overflowingQueryIds queries <> [] /\
   exists r, eviction = [Event (delete_overflowing queries) r]).

(** What follows the completions request: nothing when it rejects or reports
    an error, else the metering call and the updates of the [try] block. *)
Definition after_request (projectId : string) (res : outcome CompletionsJson)
    (tail : list event) (o : outcome nat) : Prop :=
  match res with
  | Raised e => tail = [] /\ o = Raised e
  | Returned json =>
      if truthy (error json)
      then tail = [] /\ o = Returned 0%nat
      else
        let entries :=
          match parsed_entries (completion_text json) with
          | Some entries => entries
          | None => []
          end in
        exists updates,
          tail = Event (record_usage projectId json) tt :: updates /\
          map call_of updates = map entry_update (before_nullish entries) /\
          o = Returned (if forallb (fun entry => negb (nullish entry)) entries
                        then List.length entries else 0%nat)
  end.

(** A delete is an eviction of the transcript [t] when it removes, from
    [query_stats], the overflowing ids of a list of records that a select of
    [t] returned. *)
Definition eviction_of (t : list event) (c : call) : Prop :=
  exists e queries,
    In e t /\
    select_answer e = Some (Some queries) /\
    c = SupabaseDelete query_stats [FIn "id" (overflowingQueryIds queries)].

(** An update marks processed when it is the update of some entry. *)
Definition marks_processed (c : call) : Prop :=
  exists i p r, c = update_of i p r.

Definition store_writes_justified (t : list event) : Prop :=
  forall e, In e t ->
    (is_delete (call_of e) = true -> eviction_of t (call_of e)) /\
    (is_update (call_of e) = true -> marks_processed (call_of e)).

(** ** The handler *)

(** [`${s}`] of a possibly undefined string. *)
Definition interpolate (s : option string) : string :=
  match s with Some s => s | None => "undefined" end.

Definition ok (processed : nat) : NextApiResponse :=
  {| headers := [];
     statusCode := 200;
     sent := {| Data.status := Some "ok";
                Data.processed := Some processed;
                Data.error := None |} |}.

(** [for (const { project_id } of data) { ... }]. *)
Fixpoint for_project_ids (data : list (option string)) (totalProcessed : nat) : prog nat :=
  match data with
  | [] => Ret totalProcessed
  | project_id :: rest =>
      if present project_id
      then processed <- processProjectQueryStats (nullish_empty project_id) ;;
           for_project_ids rest (totalProcessed + processed)%nat
      else for_project_ids rest totalProcessed
  end.

Definition handler (req : NextApiRequest) : prog NextApiResponse :=
  if negb (present (method req))
     || negb (includes allowedMethods (nullish_empty (method req)))
  then
    Ret {| headers := [("Allow", allowedMethods)];
           statusCode := 405;
           sent := {| Data.status := None;
                      Data.processed := None;
                      Data.error :=
                        Some ("Method " ++ interpolate (method req) ++ " Not Allowed") |} |}
  else
    let projectId := query_projectId req in
    if present projectId
    then processed <- processProjectQueryStats (nullish_empty projectId) ;;
         Ret (ok processed)
    else
      data <- await (SupabaseSelect v_distinct_unprocessed_query_stats_project_ids
                       "project_id" [] 20) ;;
      match data with
      | None => Ret (ok 0)
      | Some data =>
          totalProcessed <- for_project_ids data 0%nat ;;
          Ret (ok totalProcessed)
      end.

End Job.

(** ** A reference model of the store

    The [query_stats] table as the job's calls see it, after the store
    contract: a select returns the rows that pass the filters, up to the
    limit; a delete removes the rows that pass the filters; an update writes
    the given columns of the rows that pass the filters and leaves every other
    column as it is. A value that is [undefined] is not sent; text columns
    take a string or null, [processed] a boolean, and the store refuses
    anything else. *)

Record Row : Type := {
  row_id : string;
  row_project_id : string;
  row_prompt : option string;
  row_response : option string;
  row_processed : bool;
  row_created_at : string;
}.

Definition text_cell (s : option string) : jsval :=
  match s with Some s => JStr s | None => JNull end.

Definition cell (r : Row) (column : string) : jsval :=
  if String.eqb column "id" then JStr (row_id r)
  else if String.eqb column "project_id" then JStr (row_project_id r)
  else if String.eqb column "prompt" then text_cell (row_prompt r)
  else if String.eqb column "response" then text_cell (row_response r)
  else if String.eqb column "processed" then JBool (row_processed r)
  else if String.eqb column "created_at" then JStr (row_created_at r)
  else JUndefined.

Definition same (x y : jsval) : bool :=
  match x, y with
  | JStr a, JStr b => String.eqb a b
  | JBool a, JBool b => Bool.eqb a b
  | _, _ => false
  end.

Definition holds (r : Row) (f : filter) : bool :=
  match f with
  | FMatch query => forallb (fun kv => same (cell r (fst kv)) (snd kv)) query
  | FIn column values => existsb (fun s => same (cell r column) (JStr s)) values
  | FEq column v => same (cell r column) v
  end.

Definition passes (filters : list filter) (r : Row) : bool :=
  forallb (holds r) filters.

Definition set_text (v : jsval) (old : option string) : option (option string) :=
  match v with
  | JUndefined => Some old
  | JNull => Some None
  | JStr s => Some (Some s)
  | _ => None
  end.

Definition set_column (r : Row) (column : string) (v : jsval) : option Row :=
  if String.eqb column "processed" then
    match v with
    | JUndefined => Some r
    | JBool b =>
        Some {| row_id := row_id r; row_project_id := row_project_id r;
                row_prompt := row_prompt r; row_response := row_response r;
                row_processed := b; row_created_at := row_created_at r |}
    | _ => None
    end
  else if String.eqb column "prompt" then
    match set_text v (row_prompt r) with
    | Some p =>
        Some {| row_id := row_id r; row_project_id := row_project_id r;
                row_prompt := p; row_response := row_response r;
                row_processed := row_processed r; row_created_at := row_created_at r |}
    | None => None
    end
  else if String.eqb column "response" then
    match set_text v (row_response r) with
    | Some p =>
        Some {| row_id := row_id r; row_project_id := row_project_id r;
                row_prompt := row_prompt r; row_response := p;
                row_processed := row_processed r; row_created_at := row_created_at r |}
    | None => None
    end
  else None.

Fixpoint set_columns (values : list (string * jsval)) (r : Row) : option Row :=
  match values with
  | [] => Some r
  | (column, v) :: rest =>
      match set_column r column v with
      | Some r1 => set_columns rest r1
      | None => None
      end
  end.

(** The table after an update, or [None] when the store refuses it. *)
Fixpoint store_update (values : list (string * jsval)) (filters : list filter)
    (rows : list Row) : option (list Row) :=
  match rows with
  | [] => Some []
  | r :: rest =>
      match (if passes filters r then set_columns values r else Some r),
            store_update values filters rest with
      | Some r1, Some rest1 => Some (r1 :: rest1)
      | _, _ => None
      end
  end.

Definition store_delete (filters : list filter) (rows : list Row) : list Row :=
  List.filter (fun r => negb (passes filters r)) rows.

Definition to_data (r : Row) : QueryStatData :=
  {| id := row_id r; prompt := row_prompt r; response := row_response r |}.

Definition store_select (filters : list filter) (limit : nat) (rows : list Row)
    : list QueryStatData :=
  firstn limit (map to_data (List.filter (passes filters) rows)).

(** The projects that have unprocessed rows, each once. *)
Definition unprocessed_project_ids (rows : list Row) : list (option string) :=
  map Some (nodup string_dec
              (map row_project_id (List.filter (fun r => negb (row_processed r)) rows))).

(** The services around the store: the completions endpoint, the projects'
    own keys, and the store calls that fail (with their error). *)
Record Services : Type := {
  completions : string -> string -> Payload -> outcome CompletionsJson;
  projectConfig : string -> option string;
  failing : call -> option string;
}.

(** The environment made of the table and the services. A failing store call
    has no effect. *)
Definition backend (sv : Services) : env (list Row) :=
  fun c =>
    match c as c0 return list Row -> resp c0 * list Row with
    | SupabaseSelect from columns filters limit => fun rows =>
        (match from as t return option (list (selected t)) with
         | query_stats =>
             match failing sv (SupabaseSelect query_stats columns filters limit) with
             | Some _ => None
             | None => Some (store_select filters limit rows)
             end
         | v_distinct_unprocessed_query_stats_project_ids =>
             Some (firstn limit (unprocessed_project_ids rows))
         end, rows)
    | SupabaseDelete from filters => fun rows =>
        match failing sv (SupabaseDelete from filters) with
        | Some e => (Some e, rows)
        | None => (None, store_delete filters rows)
        end
    | SupabaseUpdate from values filters => fun rows =>
        match failing sv (SupabaseUpdate from values filters) with
        | Some e => (Some e, rows)
        | None =>
            match store_update values filters rows with
            | Some rows1 => (None, rows1)
            | None => (Some "refused", rows)
            end
        end
    | GetProjectConfigData projectId => fun rows => (projectConfig sv projectId, rows)
    | Fetch url authorization payload => fun rows =>
        (completions sv url authorization payload, rows)
    | RecordProjectTokenCount _ _ _ _ => fun rows => (tt, rows)
    end.

(** The row [x] once an update of the entry with id [i], prompt [p] and
    response [r] has reached the table. *)
Definition anonymized (i p r : string) (x : Row) : Row :=
  if String.eqb (row_id x) i
  then {| row_id := row_id x; row_project_id := row_project_id x;
          row_prompt := Some p; row_response := Some r;
          row_processed := true; row_created_at := row_created_at x |}
  else x.

(** The entry [{id: i, prompt: p, response: r}]. *)
Definition entry_of (i p r : string) : jsval :=
  JObj [("id", JStr i); ("prompt", JStr p); ("response", JStr r)].

(** ** A concrete instance

    A cutoff of 128 tokens (so a budget of 64), a token estimate of a quarter
    of the length, a serialisation without escapes (the texts below hold no
    quote), and a parser that knows the completion texts used below. *)

Definition quote : string := String (ascii_of_nat 34) "".

Definition json_string (s : string) : string := quote ++ s ++ quote.

Definition json_text (s : option string) : string :=
  match s with Some s => json_string s | None => "null" end.

Definition stringify_record (q : QueryStatData) : string :=
  "{" ++ json_string "id" ++ ":" ++ json_string (id q) ++ ","
  ++ json_string "prompt" ++ ":" ++ json_text (prompt q) ++ ","
  ++ json_string "response" ++ ":" ++ json_text (response q) ++ "}".

Definition example_imports : Imports :=
  {| CONTEXT_TOKENS_CUTOFF_GPT_3_5_TURBO := 128;
     approximatedTokenCount := fun text => Z.of_nat (String.length text) # 4;
     getCompletionsUrl := fun _ => "https://api.openai.com/v1/chat/completions";
     getCompletionsResponseText :=
       fun json _ => match body json with JStr text => text | _ => "" end;
     safeParseInt := fun v fallback => match v with JNum k => k | _ => fallback end;
     geLLMInfoFromModel := fun m => value m |}.

Definition scrubbed_a : jsval := entry_of "a" "hello" "hi".
Definition scrubbed_b : jsval := entry_of "b" "where is my order" "on its way".
Definition scrubbed_c : jsval := entry_of "c" "thanks" "welcome".
Definition scrubbed_z : jsval := entry_of "z" "redacted" "removed".

Definition example_parse (text : string) : option jsval :=
  if String.eqb text "[]" then Some (JArr [])
  else if String.eqb text "[null]" then Some (JArr [JNull])
  else if String.eqb text "[a]" then Some (JArr [scrubbed_a])
  else if String.eqb text "[a,b,c]" then Some (JArr [scrubbed_a; scrubbed_b; scrubbed_c])
  else if String.eqb text "[z]" then Some (JArr [scrubbed_z])
  else None.

Definition example_runtime : Runtime :=
  {| JSON_stringify := stringify_record;
     JSON_stringify_indent2 :=
       fun l => "[" ++ String.concat "," (map stringify_record l) ++ "]";
     JSON_parse := example_parse;
     OPENAI_API_KEY := Some "sk-default" |}.

Definition long_text : string :=
  String.concat " " (repeat "a question that goes on" 12).

Definition row_a : Row :=
  {| row_id := "a"; row_project_id := "p1"; row_prompt := Some "hello Ann";
     row_response := Some "hi"; row_processed := false;
     row_created_at := "2023-06-01" |}.

Definition row_b : Row :=
  {| row_id := "b"; row_project_id := "p1";
     row_prompt := Some "where is my order, Bea"; row_response := Some "on its way";
     row_processed := false; row_created_at := "2023-06-01" |}.

Definition row_c : Row :=
  {| row_id := "c"; row_project_id := "p1"; row_prompt := Some "thanks Cy";
     row_response := Some "welcome"; row_processed := false;
     row_created_at := "2023-06-01" |}.

Definition row_big : Row :=
  {| row_id := "big"; row_project_id := "p1"; row_prompt := Some long_text;
     row_response := None; row_processed := false;
     row_created_at := "2023-06-02" |}.

Definition row_z : Row :=
  {| row_id := "z"; row_project_id := "p2"; row_prompt := Some "call Bob";
     row_response := Some "done"; row_processed := false;
     row_created_at := "2023-06-03" |}.

Definition answer_with (text : string) : CompletionsJson :=
  {| error := JUndefined; usage_total_tokens := JNum 42; body := JStr text |}.

Definition answer_error : CompletionsJson :=
  {| error := JObj [("message", JStr "Rate limit reached")];
     usage_total_tokens := JUndefined; body := JNull |}.

(** Services whose completions endpoint always answers [reply], with no
    project key and no failing store call. *)
Definition services (reply : outcome CompletionsJson) : Services :=
  {| completions := fun _ _ _ => reply;
     projectConfig := fun _ => None;
     failing := fun _ => None |}.

(** The same, with a store that fails every update of the row [i]. *)
Definition services_failing (reply : outcome CompletionsJson) (i : string) : Services :=
  {| completions := fun _ _ _ => reply;
     projectConfig := fun _ => None;
     failing := fun c =>
       match c with
       | SupabaseUpdate _ _ [FEq _ (JStr j)] =>
           if String.eqb i j then Some "no such row" else None
       | _ => None
       end |}.

(** ** Further notions *)

Definition is_record (c : call) : bool :=
  match c with RecordProjectTokenCount _ _ _ _ => true | _ => false end.

(** What [for ... of] accepts among the values [JSON.parse] returns. *)
Definition is_iterable (v : jsval) : bool :=
  match v with JArr _ | JStr _ => true | _ => false end.

(** The answer of the project configuration, when the event is that call. *)
Definition config_answer (e : event) : option (option string) :=
  match e with
  | Event (GetProjectConfigData _) r => Some r
  | _ => None
  end.


(** The select of the handler on the view of projects with a backlog. *)
Definition select_project_ids : call :=
  SupabaseSelect v_distinct_unprocessed_query_stats_project_ids "project_id" [] 20.

(** The [Authorization] header for a project key [byoOpenAIKey] and the
    key of the process environment [env]. *)
Definition bearer (byoOpenAIKey env : option string) : string :=
  "Bearer " ++
  match byoOpenAIKey with
  | Some key => if String.eqb key "" then nullish_empty env else key
  | None => nullish_empty env
  end.

(** The row [y] is the row [x], possibly with other texts and possibly
    processed since: same id, project and creation date, and processed if
    [x] was. *)
Definition same_identity (x y : Row) : Prop :=
  row_id x = row_id y /\
  row_project_id x = row_project_id y /\
  row_created_at x = row_created_at y /\
  (row_processed x = true -> row_processed y = true).

(** Every row of [after] is a row of [before], up to [same_identity]. *)
Definition stems_from (before after : list Row) : Prop :=
  forall y, In y after -> exists x, In x before /\ same_identity x y.

(** A second parser for the instance, with texts that parse to something
    other than an array of records. *)
Definition example_parse_loose (text : string) : option jsval :=
  if String.eqb text "{}" then Some (JObj [])
  else if String.eqb text "null" then Some JNull
  else if String.eqb text "[a,null,c]"
       then Some (JArr [scrubbed_a; JNull; scrubbed_c])
  else None.

Definition example_runtime_loose : Runtime :=
  {| JSON_stringify := stringify_record;
     JSON_stringify_indent2 :=
       fun l => "[" ++ String.concat "," (map stringify_record l) ++ "]";
     JSON_parse := example_parse_loose;
     OPENAI_API_KEY := Some "sk-default" |}.

(** A record whose estimate is the budget of the instance exactly: 256
    characters once serialised. *)
Definition row_edge : Row :=
  {| row_id := "e"; row_project_id := "p1";
     row_prompt := Some (String.concat "" (repeat "x" 218));
     row_response := None; row_processed := false;
     row_created_at := "2023-06-04" |}.

(** Services with a key of its own for every project. *)
Definition services_keyed (reply : outcome CompletionsJson) (key : string) : Services :=
  {| completions := fun _ _ _ => reply;
     projectConfig := fun _ => Some key;
     failing := fun _ => None |}.

(** The entries [{id, prompt, response}] of a list of triples, the ids they
    name, and the table once the updates of all of them have reached it. *)
Definition entries_of (triples : list (string * string * string)) : list jsval :=
  map (fun t => entry_of (fst (fst t)) (snd (fst t)) (snd t)) triples.

Definition named_ids (triples : list (string * string * string)) : list string :=
  map (fun t => fst (fst t)) triples.

Definition anonymize_all (triples : list (string * string * string))
    (rows : list Row) : list Row :=
  fold_left (fun table t => map (anonymized (fst (fst t)) (snd (fst t)) (snd t)) table)
    triples rows.

(** ** Facts *)

Section TrimFacts.

Context {imports : Imports} {runtime : Runtime}.

Lemma running_total_snoc (t : Q) (l : list QueryStatData) (q : QueryStatData) :
  running_total t (l ++ [q])%list = running_total t l + estimateQueryTokenCount q.
Proof.
  unfold running_total. rewrite fold_left_app. reflexivity.
Qed.

Lemma running_total_cons (t : Q) (q : QueryStatData) (l : list QueryStatData) :
  running_total t (q :: l) = running_total (t + estimateQueryTokenCount q) l.
Proof. reflexivity. Qed.

(** The loop returns what it had, followed by a prefix of what it was given:
    the running total is below the budget after each record of the prefix,
    and the first record left out, if any, takes it to the budget or above. *)
Lemma trimQueries_for_prefix (queries : list QueryStatData) (budget : Q) :
  forall (t : Q) (acc : list QueryStatData),
  exists k : nat,
    (k <= List.length queries)%nat /\
    trimQueries_for queries budget t acc = (acc ++ firstn k queries)%list /\
    (forall j, (1 <= j <= k)%nat -> running_total t (firstn j queries) < budget) /\
    ((k < List.length queries)%nat ->
     budget <= running_total t (firstn (S k) queries)).
Proof.
  induction queries as [| query rest IH]; intros t acc.
  - exists 0%nat. simpl. rewrite app_nil_r.
    repeat split; lia.
  - cbn [trimQueries_for].
    destruct (Qle_bool budget (t + estimateQueryTokenCount query)) eqn:Hcmp.
    + exists 0%nat. simpl firstn. rewrite app_nil_r.
      repeat split; simpl; try lia.
      intros _. apply Qle_bool_iff in Hcmp. exact Hcmp.
    + destruct (IH (t + estimateQueryTokenCount query) (acc ++ [query])%list)
        as (k & Hk & Heq & Hbelow & Hstop).
      exists (S k). repeat split.
      * simpl. lia.
      * rewrite Heq. rewrite <- app_assoc. reflexivity.
      * intros j Hj. destruct j as [| j]; [lia |].
        cbn [firstn]. rewrite running_total_cons.
        destruct j as [| j].
        -- simpl. apply Qnot_le_lt. intro Hle.
           apply Qle_bool_iff in Hle. congruence.
        -- apply Hbelow. lia.
      * intros Hlt. cbn [firstn]. rewrite running_total_cons.
        apply Hstop. simpl in Hlt. lia.
Qed.

Lemma trimQueries_prefix (queries : list QueryStatData) (budget : Q) :
  exists k : nat,
    (k <= List.length queries)%nat /\
    trimQueries queries budget = firstn k queries /\
    (forall j, (1 <= j <= k)%nat -> total_cost (firstn j queries) < budget) /\
    ((k < List.length queries)%nat -> budget <= total_cost (firstn (S k) queries)).
Proof.
  unfold trimQueries, total_cost.
  destruct (trimQueries_for_prefix queries budget 0 []) as (k & H).
  exists k. exact H.
Qed.

Lemma stays_below_firstn (queries : list QueryStatData) (budget : Q) (k : nat) :
  (k <= List.length queries)%nat ->
  (forall j, (1 <= j <= k)%nat -> total_cost (firstn j queries) < budget) ->
  stays_below (firstn k queries) budget.
Proof.
  intros Hk H j Hj. rewrite length_firstn in Hj.
  rewrite firstn_firstn. replace (Nat.min j k) with j by lia.
  apply H. lia.
Qed.

(** With estimates that are never negative, the loop keeps its running
    total non-negative, so each record it takes costs less than the budget. *)
Lemma trimQueries_for_members (queries : list QueryStatData) (budget : Q) :
  (forall text, 0 <= approximatedTokenCount text) ->
  forall (t : Q) (acc : list QueryStatData),
    0 <= t ->
    (forall q, In q acc -> estimateQueryTokenCount q < budget) ->
    forall q, In q (trimQueries_for queries budget t acc) ->
              estimateQueryTokenCount q < budget.
Proof.
  intros Hnonneg.
  induction queries as [| query rest IH]; intros t acc Ht Hacc q Hq.
  - apply Hacc. exact Hq.
  - cbn [trimQueries_for] in Hq.
    destruct (Qle_bool budget (t + estimateQueryTokenCount query)) eqn:Hcmp.
    + apply Hacc. exact Hq.
    + assert (Hlt : t + estimateQueryTokenCount query < budget).
      { apply Qnot_le_lt. intro Hle. apply Qle_bool_iff in Hle. congruence. }
      assert (Hq0 : 0 <= estimateQueryTokenCount query) by apply Hnonneg.
      apply (IH (t + estimateQueryTokenCount query) (acc ++ [query])%list); try assumption.
      * lra.
      * intros q' Hin. apply in_app_or in Hin. destruct Hin as [Hin | [Hin | []]].
        -- apply Hacc. exact Hin.
        -- subst q'. lra.
Qed.

(** C1 (amended): the greedy trim walks the fetched records, the overflowing
    ones included, in their fetched order, and returns exactly the longest
    prefix of the fetched list whose running estimated cost stays below the
    budget; the prefix may be empty, nothing after the stopping point is
    taken and nothing is reordered. *)
Theorem trimQueries_longest_prefix (queries : list QueryStatData) (budget : Q) :
  longest_prefix_below (trimQueries queries budget) queries budget.
Proof.
  destruct (trimQueries_prefix queries budget) as (k & Hk & Heq & Hbelow & Hstop).
  unfold longest_prefix_below. rewrite Heq. repeat split.
  - exists k. reflexivity.
  - apply stays_below_firstn; assumption.
  - intros k' Hk' Hstays. rewrite length_firstn.
    destruct (Nat.le_gt_cases k' k) as [Hle | Hgt]; [lia |].
    exfalso.
    assert (Hlen : (k < List.length queries)%nat) by lia.
    specialize (Hstop Hlen).
    specialize (Hstays (S k)). rewrite length_firstn in Hstays.
    rewrite firstn_firstn in Hstays.
    replace (Nat.min (S k) k') with (S k) in Hstays by lia.
    assert (Hlt : total_cost (firstn (S k) queries) < budget) by (apply Hstays; lia).
    lra.
Qed.

(** C3: for every positive budget, the batch that the greedy trim returns has
    a total estimated cost strictly below the budget, and so has the batch
    under construction after every single addition. *)
Theorem trimQueries_below_budget (queries : list QueryStatData) (budget : Q) :
  0 < budget ->
  total_cost (trimQueries queries budget) < budget /\
  stays_below (trimQueries queries budget) budget.
Proof.
  intros Hpos.
  destruct (trimQueries_prefix queries budget) as (k & Hk & Heq & Hbelow & _).
  rewrite Heq. split.
  - destruct k as [| k].
    + exact Hpos.
    + apply Hbelow. lia.
  - apply stays_below_firstn; assumption.
Qed.

End TrimFacts.

Section RunFacts.

Context {S : Type} (world : env S).

Lemma run_bind {A B : Type} (p : prog A) (f : A -> prog B) (s : S) :
  run world (bind p f) s =
  let '(t1, s1, o1) := run world p s in
  match o1 with
  | Returned a => let '(t2, s2, o2) := run world (f a) s1 in ((t1 ++ t2)%list, s2, o2)
  | Raised e => (t1, s1, Raised e)
  end.
Proof.
  revert s. induction p as [a | e | c k IH]; intros s; cbn [bind run].
  - destruct (run world (f a) s) as [[t2 s2] o2]. reflexivity.
  - reflexivity.
  - destruct (world c s) as [r s1]. rewrite IH.
    destruct (run world (k r) s1) as [[t1 s2] o1].
    destruct o1 as [a | e]; [| reflexivity].
    destruct (run world (f a) s2) as [[t2 s3] o2]. reflexivity.
Qed.

Lemma run_try_catch {A : Type} (p h : prog A) (s : S) :
  run world (try_catch p h) s =
  let '(t1, s1, o1) := run world p s in
  match o1 with
  | Returned a => (t1, s1, Returned a)
  | Raised _ => let '(t2, s2, o2) := run world h s1 in ((t1 ++ t2)%list, s2, o2)
  end.
Proof.
  revert s. induction p as [a | e | c k IH]; intros s; cbn [try_catch run].
  - reflexivity.
  - destruct (run world h s) as [[t2 s2] o2]. reflexivity.
  - destruct (world c s) as [r s1]. rewrite IH.
    destruct (run world (k r) s1) as [[t1 s2] o1].
    destruct o1 as [a | e]; [reflexivity |].
    destruct (run world h s2) as [[t2 s3] o2]. reflexivity.
Qed.

(** The loop over the parsed entries issues the update of each entry before
    the first null one, whatever the updates answer, and raises at a null
    entry. *)
Lemma for_entries_run (entries : list jsval) (s : S) :
  map call_of (fst (fst (run world (for_entries entries) s)))
    = map entry_update (before_nullish entries) /\
  snd (run world (for_entries entries) s)
    = if forallb (fun entry => negb (nullish entry)) entries
      then Returned tt else Raised TypeError.
Proof.
  revert s. induction entries as [| entry rest IH]; intros s.
  - split; reflexivity.
  - destruct entry; cbn [for_entries get_member lift bind await run before_nullish
                         nullish forallb negb andb map fst snd];
      try (split; reflexivity);
      match goal with
      | |- context [world ?c s] => destruct (world c s) as [r s1]
      end;
      cbn [bind]; specialize (IH s1);
      destruct (run world (for_entries rest) s1) as [[t s2] o];
      cbn [fst snd map call_of] in *; destruct IH as [IHcalls IHres];
      (split; [f_equal; exact IHcalls | exact IHres]).
Qed.

End RunFacts.

Section DriverFacts.

Context {imports : Imports} {runtime : Runtime}.
Context {S : Type} (world : env S).

Lemma iterate_length (v : jsval) (entries : list jsval) :
  iterate v = Returned entries ->
  length_member v = Returned (List.length entries).
Proof.
  destruct v; cbn [iterate length_member]; intros H; try discriminate.
  - injection H as <-. rewrite length_map. f_equal.
    induction s as [| c s IH]; simpl; [reflexivity | f_equal; exact IH].
  - injection H as <-. reflexivity.
Qed.

(** The [try] block: it updates the entries before the first null one and
    returns the number of entries when none is null; it returns 0, having
    updated nothing, when the text does not parse or parses to something
    that is not iterable. *)
Lemma parse_and_update_run (text : string) (s : S) :
  let entries :=
    match parsed_entries text with Some entries => entries | None => [] end in
  map call_of (transcript world (parse_and_update text) s)
    = map entry_update (before_nullish entries) /\
  result world (parse_and_update text) s
    = Returned (if forallb (fun entry => negb (nullish entry)) entries
                then List.length entries else 0%nat).
Proof.
  unfold transcript, result, parse_and_update, parsed_entries.
  rewrite run_try_catch.
  destruct (JSON_parse text) as [v |]; cbn [bind run]; [| split; reflexivity].
  destruct (iterate v) as [entries | e] eqn:Hiter.
  - rewrite (iterate_length v entries Hiter). cbn [lift bind].
    rewrite run_bind.
    destruct (for_entries_run world entries s) as [Hcalls Hres].
    destruct (run world (for_entries entries) s) as [[t s1] o].
    cbn [fst snd] in Hcalls, Hres. subst o.
    destruct (forallb (fun entry => negb (nullish entry)) entries).
    + cbn [run fst snd]. rewrite app_nil_r. split; [exact Hcalls | reflexivity].
    + cbn [run fst snd]. rewrite app_nil_r. split; [exact Hcalls | reflexivity].
  - assert (Hrun : run world
                     (_ <- lift (length_member v) ;;
                      entries <- lift (Raised e) ;;
                      for_entries entries ;; lift (length_member v)) s
                   = ([], s, Raised (match length_member v with
                                     | Raised e' => e' | Returned _ => e end))).
    { destruct (length_member v); reflexivity. }
    rewrite Hrun. cbn [run fst snd app map before_nullish forallb].
    split; reflexivity.
Qed.

(** The shape of every execution of the driver. *)
Lemma driver_shape (projectId : string) (s : S) :
  exists (answer : option (list QueryStatData)) (rest : list event),
    fst (world (select_unprocessed projectId) s) = answer /\
    transcript world (processProjectQueryStats projectId) s
      = Event (select_unprocessed projectId) answer :: rest /\
    match answer with
    | None | Some [] =>
        rest = [] /\
        result world (processProjectQueryStats projectId) s = Returned 0%nat
    | Some queries =>
        exists (eviction : list event) (byo : option string)
               (res : outcome CompletionsJson) (tail : list event),
          rest = (eviction
                  ++ Event (GetProjectConfigData projectId) byo
                  :: Event (completions_request byo (trimQueries queries maxTokens)) res
                  :: tail)%list /\
          evicted queries eviction /\
          after_request projectId res tail
            (result world (processProjectQueryStats projectId) s)
    end.
Proof.
  unfold transcript, result, processProjectQueryStats, select_unprocessed.
  cbn [await bind run].
  destruct (world (SupabaseSelect query_stats "id,prompt,response"
                     [FMatch [("project_id", JStr projectId); ("processed", JBool false)]]
                     10) s) as [answer s1].
  exists answer. cbn [fst].
  destruct answer as [[| query queries] |].
  - exists []. cbn. repeat split; reflexivity.
  - remember (query :: queries) as qs eqn:Hqs.
    rewrite run_bind.
    assert (Hevict : exists eviction s2,
               run world
                 (if (0 <? List.length (overflowingQueryIds qs))%nat
                  then _ <- await (SupabaseDelete query_stats
                                     [FIn "id" (overflowingQueryIds qs)]) ;;
                       Ret tt
                  else Ret tt) s1 = (eviction, s2, Returned tt)
               /\ evicted qs eviction).
    { unfold evicted, delete_overflowing.
      destruct (overflowingQueryIds qs) as [| i ids].
      - exists [], s1. split; [reflexivity | left; split; reflexivity].
      - cbn [List.length Nat.ltb Nat.leb await bind run].
        destruct (world (SupabaseDelete query_stats [FIn "id" (i :: ids)]) s1)
          as [r s2].
        exists [Event (SupabaseDelete query_stats [FIn "id" (i :: ids)]) r], s2.
        split; [reflexivity |]. right. split; [discriminate |].
        exists r. reflexivity. }
    destruct Hevict as (eviction & s2 & Hrun & Hevicted).
    cbn [await bind] in Hrun. rewrite Hrun. clear Hrun.
    cbn [run].
    destruct (world (GetProjectConfigData projectId) s2) as [byo s3].
    cbn [run].
    destruct (world (Fetch (getCompletionsUrl gpt_3_5_turbo)
                       ("Bearer " ++ nullish_empty (or_else byo OPENAI_API_KEY))
                       (payload_for gpt_3_5_turbo
                          (prompt_for (trimQueries qs maxTokens)))) s3)
      as [res s4].
    assert (Htail : exists tail s5 o,
               run world
                 (json <- lift res ;;
                  if truthy (error json) then Ret 0%nat
                  else
                    _ <- await (RecordProjectTokenCount projectId
                                  (geLLMInfoFromModel gpt_3_5_turbo)
                                  (safeParseInt (usage_total_tokens json) 0)
                                  "query-stats") ;;
                    parse_and_update (getCompletionsResponseText json gpt_3_5_turbo))
                 s4 = (tail, s5, o)
               /\ after_request projectId res tail o).
    { unfold after_request. destruct res as [json | e]; cbn [lift bind].
      - destruct (truthy (error json)).
        + exists [], s4, (Returned 0%nat). repeat split; reflexivity.
        + cbn [await bind run].
          destruct (world (RecordProjectTokenCount projectId
                             (geLLMInfoFromModel gpt_3_5_turbo)
                             (safeParseInt (usage_total_tokens json) 0)
                             "query-stats") s4) as [[] s5].
          destruct (parse_and_update_run
                      (getCompletionsResponseText json gpt_3_5_turbo) s5)
            as [Hcalls Hres].
          unfold transcript, result in Hcalls, Hres.
          destruct (run world
                      (parse_and_update (getCompletionsResponseText json gpt_3_5_turbo))
                      s5) as [[updates s6] o].
          cbn [fst snd] in Hcalls, Hres.
          eexists _, s6, o. split; [reflexivity |].
          exists updates. repeat split; assumption.
      - exists [], s4, (Raised e). repeat split; reflexivity. }
    destruct Htail as (tail & s5 & o & Hrun & Hafter).
    cbn [await bind] in Hrun. rewrite Hrun. clear Hrun.
    cbn [fst snd].
    eexists. split; [reflexivity |]. split; [reflexivity |].
    exists eviction, byo, res, tail. repeat split; assumption.
  - exists []. cbn. repeat split; reflexivity.
Qed.

Lemma fetch_answer_is_fetch (e : event) (res : outcome CompletionsJson) :
  fetch_answer e = Some res -> is_fetch (call_of e) = true.
Proof. destruct e as [c r]; destruct c; cbn; congruence. Qed.

Lemma in_updates (updates : list event) (entries : list jsval) (e : event) :
  map call_of updates = map entry_update entries ->
  In e updates ->
  exists entry, In entry entries /\ call_of e = entry_update entry.
Proof.
  intros Hmap Hin. apply (in_map call_of) in Hin. rewrite Hmap in Hin.
  apply in_map_iff in Hin. destruct Hin as (entry & Heq & Hentry).
  exists entry. split; [exact Hentry | symmetry; exact Heq].
Qed.

Lemma in_before_nullish (entries : list jsval) (entry : jsval) :
  In entry (before_nullish entries) -> In entry entries.
Proof.
  induction entries as [| x rest IH]; cbn [before_nullish]; [tauto |].
  destruct (nullish x); cbn [In]; [tauto |]. intros [H | H]; auto.
Qed.

Lemma before_nullish_all (entries : list jsval) :
  forallb (fun entry => negb (nullish entry)) entries = true ->
  before_nullish entries = entries.
Proof.
  induction entries as [| x rest IH]; cbn [before_nullish forallb]; [reflexivity |].
  destruct (nullish x); cbn [negb andb]; [discriminate |].
  intros H. f_equal. apply IH. exact H.
Qed.

Lemma filter_updates_all (entries : list jsval) :
  List.filter is_update (map entry_update entries) = map entry_update entries.
Proof.
  induction entries as [| x rest IH]; cbn; [reflexivity | f_equal; exact IH].
Qed.

Lemma evicted_updates (queries : list QueryStatData) (eviction : list event) :
  evicted queries eviction -> updates_of eviction = [].
Proof.
  intros [[_ ->] | [_ [r ->]]]; reflexivity.
Qed.

Lemma evicted_no_fetch (queries : list QueryStatData) (eviction : list event)
    (e : event) :
  evicted queries eviction -> In e eviction -> is_fetch (call_of e) = false.
Proof.
  intros [[_ ->] | [_ [r ->]]]; cbn [In]; [tauto |].
  intros [<- | []]. reflexivity.
Qed.

Lemma updates_of_app (t1 t2 : list event) :
  updates_of (t1 ++ t2) = (updates_of t1 ++ updates_of t2)%list.
Proof.
  unfold updates_of, calls. rewrite map_app. apply filter_app.
Qed.

(** An execution that reaches the completions request: the records fetched,
    the eviction, the request and what follows it. *)
Lemma driver_fetch (projectId : string) (s : S) (e : event)
    (res : outcome CompletionsJson) :
  In e (transcript world (processProjectQueryStats projectId) s) ->
  fetch_answer e = Some res ->
  exists (queries : list QueryStatData) (eviction : list event)
         (byo : option string) (tail : list event),
    fst (world (select_unprocessed projectId) s) = Some queries /\
    queries <> [] /\
    transcript world (processProjectQueryStats projectId) s
      = (Event (select_unprocessed projectId) (Some queries)
         :: eviction
         ++ Event (GetProjectConfigData projectId) byo
         :: Event (completions_request byo (trimQueries queries maxTokens)) res
         :: tail)%list /\
    evicted queries eviction /\
    after_request projectId res tail
      (result world (processProjectQueryStats projectId) s).
Proof.
  intros Hin Hans.
  assert (Hfetch := fetch_answer_is_fetch e res Hans).
  destruct (driver_shape projectId s) as (answer & rest & Hanswer & Ht & Hshape).
  rewrite Ht in Hin.
  assert (Hrest : In e rest).
  { destruct Hin as [<- | Hin]; [discriminate Hfetch | exact Hin]. }
  destruct answer as [[| query queries] |];
    try (destruct Hshape as [-> _]; destruct Hrest).
  destruct Hshape as (eviction & byo & res0 & tail & Hrest_eq & Hevicted & Hafter).
  exists (query :: queries), eviction, byo, tail.
  assert (Hres : res0 = res).
  { rewrite Hrest_eq in Hrest. apply in_app_or in Hrest.
    destruct Hrest as [Hev | [<- | [<- | Htail]]].
    - rewrite (evicted_no_fetch _ _ _ Hevicted Hev) in Hfetch. discriminate.
    - discriminate Hfetch.
    - cbn in Hans. congruence.
    - exfalso. unfold after_request in Hafter. destruct res0 as [json | x].
      + destruct (truthy (error json)).
        * destruct Hafter as [-> _]. destruct Htail.
        * destruct Hafter as (updates & -> & Hcalls & _).
          destruct Htail as [<- | Htail]; [discriminate Hfetch |].
          destruct (in_updates _ _ _ Hcalls Htail) as (entry & _ & Hcall).
          rewrite Hcall in Hfetch. discriminate.
      + destruct Hafter as [-> _]. destruct Htail. }
  subst res0. rewrite Ht, Hrest_eq.
  repeat split; try assumption. discriminate.
Qed.

(** C2 (amended): when the fetch returns no record (null or an empty list),
    the driver returns 0 at once: the select is the only call it makes, so it
    makes no request to the completions endpoint. *)
Theorem nothing_fetched_returns_0 (projectId : string) (s : S) :
  fst (world (select_unprocessed projectId) s) = None \/
  fst (world (select_unprocessed projectId) s) = Some [] ->
  result world (processProjectQueryStats projectId) s = Returned 0%nat /\
  calls (transcript world (processProjectQueryStats projectId) s)
    = [select_unprocessed projectId] /\
  existsb is_fetch (calls (transcript world (processProjectQueryStats projectId) s))
    = false.
Proof.
  intros Hanswer.
  destruct (driver_shape projectId s) as (answer & rest & Heq & Ht & Hshape).
  rewrite Heq in Hanswer.
  assert (Hdone : rest = [] /\
                  result world (processProjectQueryStats projectId) s = Returned 0%nat).
  { destruct Hanswer as [-> | ->]; exact Hshape. }
  destruct Hdone as [-> Hres]. rewrite Ht. repeat split; [exact Hres | ..]; reflexivity.
Qed.

Lemma overflowingQueryIds_complete (queries : list QueryStatData) (q : QueryStatData) :
  In q queries -> overflowing maxTokens q = true ->
  In (id q) (overflowingQueryIds queries).
Proof.
  unfold overflowingQueryIds.
  induction queries as [| x rest IH]; cbn [In map filter_isPresent]; [tauto |].
  intros [-> | Hin] Hover.
  - rewrite Hover. left. reflexivity.
  - destruct (overflowing maxTokens x); [right |]; apply IH; assumption.
Qed.

Lemma overflowingQueryIds_sound (queries : list QueryStatData) (i : string) :
  In i (overflowingQueryIds queries) ->
  exists q, In q queries /\ id q = i /\ overflowing maxTokens q = true.
Proof.
  unfold overflowingQueryIds.
  induction queries as [| x rest IH]; cbn [In map filter_isPresent]; [tauto |].
  destruct (overflowing maxTokens x) eqn:Hover.
  - intros [<- | Hin].
    + exists x. repeat split; [left; reflexivity | exact Hover].
    + destruct (IH Hin) as (q & Hq & Hid & Ho). exists q. repeat split; auto.
  - intros Hin. destruct (IH Hin) as (q & Hq & Hid & Ho). exists q. repeat split; auto.
Qed.

Lemma overflowing_not_trimmed (queries : list QueryStatData) (q : QueryStatData) :
  (forall text, 0 <= approximatedTokenCount text) ->
  overflowing maxTokens q = true ->
  ~ In q (trimQueries queries maxTokens).
Proof.
  intros Hnonneg Hover Hin.
  assert (Hlt : estimateQueryTokenCount q < maxTokens).
  { apply (trimQueries_for_members queries maxTokens Hnonneg 0 []); try assumption.
    - apply Qle_refl.
    - intros q' []. }
  unfold overflowing in Hover. apply negb_true_iff in Hover.
  assert (Hle : estimateQueryTokenCount q <= maxTokens) by (apply Qlt_le_weak; exact Hlt).
  apply Qle_bool_iff in Hle. congruence.
Qed.

(** C4: with token estimates that are never negative, a fetched record whose
    own estimate exceeds the overflow threshold (half the cutoff) is not a
    member of the batch that the request submits, and the same invocation
    issues a delete on [query_stats] for a list of ids that holds its id. *)
Theorem overflowing_record_evicted (projectId : string) (s : S)
    (queries : list QueryStatData) (q : QueryStatData) :
  (forall text, 0 <= approximatedTokenCount text) ->
  fst (world (select_unprocessed projectId) s) = Some queries ->
  In q queries ->
  overflowing maxTokens q = true ->
  ~ In q (trimQueries queries maxTokens) /\
  In (id q) (overflowingQueryIds queries) /\
  In (SupabaseDelete query_stats [FIn "id" (overflowingQueryIds queries)])
     (calls (transcript world (processProjectQueryStats projectId) s)) /\
  exists byo,
    In (completions_request byo (trimQueries queries maxTokens))
       (calls (transcript world (processProjectQueryStats projectId) s)).
Proof.
  intros Hnonneg Hanswer Hq Hover.
  assert (Hid := overflowingQueryIds_complete queries q Hq Hover).
  split; [apply overflowing_not_trimmed; assumption |].
  split; [exact Hid |].
  destruct (driver_shape projectId s) as (answer & rest & Heq & Ht & Hshape).
  rewrite Hanswer in Heq. subst answer.
  destruct queries as [| query queries']; [destruct Hq |].
  destruct Hshape as (eviction & byo & res & tail & -> & Hevicted & _).
  rewrite Ht. unfold calls. cbn [map call_of]. rewrite map_app. cbn [map call_of].
  split.
  - right. apply in_or_app. left.
    destruct Hevicted as [[Hnone _] | [_ [r ->]]].
    + rewrite Hnone in Hid. destruct Hid.
    + left. reflexivity.
  - exists byo. right. apply in_or_app. right. right. left. reflexivity.
Qed.

(** C5 (amended): when the completion text parses to an array of n entries,
    none of them null, the driver issues one update per entry, in order,
    whatever the store answers to each of them (an update that fails does not
    stop the next ones), and it returns n, the number of parsed entries. *)
Theorem parsed_array_updates_each_entry (projectId : string) (s : S) (e : event)
    (json : CompletionsJson) (entries : list jsval) :
  In e (transcript world (processProjectQueryStats projectId) s) ->
  fetch_answer e = Some (Returned json) ->
  truthy (error json) = false ->
  JSON_parse (completion_text json) = Some (JArr entries) ->
  forallb (fun entry => negb (nullish entry)) entries = true ->
  updates_of (transcript world (processProjectQueryStats projectId) s)
    = map entry_update entries /\
  result world (processProjectQueryStats projectId) s
    = Returned (List.length entries).
Proof.
  intros Hin Hans Herr Hparse Hall.
  destruct (driver_fetch projectId s e _ Hin Hans)
    as (queries & eviction & byo & tail & _ & _ & Ht & Hevicted & Hafter).
  unfold after_request in Hafter. rewrite Herr in Hafter.
  unfold parsed_entries in Hafter. rewrite Hparse in Hafter.
  cbn [iterate] in Hafter. rewrite Hall in Hafter.
  rewrite (before_nullish_all entries Hall) in Hafter.
  destruct Hafter as (updates & -> & Hcalls & Hres).
  split; [| exact Hres].
  rewrite Ht.
  change (Event (select_unprocessed projectId) (Some queries) :: ?l)
    with ([Event (select_unprocessed projectId) (Some queries)] ++ l)%list.
  rewrite !updates_of_app. rewrite (evicted_updates _ _ Hevicted).
  unfold updates_of, calls. cbn [map call_of List.filter is_update app
                                 select_unprocessed completions_request record_usage].
  rewrite Hcalls. apply filter_updates_all.
Qed.

(** C6 (amended): when the answer of the completions endpoint carries an
    error (a truthy [error] member), or its completion text does not parse as
    JSON, the driver issues no update and returns 0. When the request itself
    fails ([fetch] or [res.json()] rejects), no update is issued either, and
    the driver returns no count: it rejects with the same error. *)
Theorem failed_completion_updates_nothing (projectId : string) (s : S) (e : event)
    (res : outcome CompletionsJson) :
  In e (transcript world (processProjectQueryStats projectId) s) ->
  fetch_answer e = Some res ->
  match res with
  | Returned json =>
      truthy (error json) = true \/ JSON_parse (completion_text json) = None ->
      updates_of (transcript world (processProjectQueryStats projectId) s) = [] /\
      result world (processProjectQueryStats projectId) s = Returned 0%nat
  | Raised x =>
      updates_of (transcript world (processProjectQueryStats projectId) s) = [] /\
      result world (processProjectQueryStats projectId) s = Raised x
  end.
Proof.
  intros Hin Hans.
  destruct (driver_fetch projectId s e _ Hin Hans)
    as (queries & eviction & byo & tail & _ & _ & Ht & Hevicted & Hafter).
  assert (Hupd : forall tail',
             updates_of tail' = [] ->
             updates_of
               (Event (select_unprocessed projectId) (Some queries)
                :: eviction
                ++ Event (GetProjectConfigData projectId) byo
                :: Event (completions_request byo (trimQueries queries maxTokens)) res
                :: tail') = []).
  { intros tail' Htail'.
    change (Event (select_unprocessed projectId) (Some queries) :: ?l)
      with ([Event (select_unprocessed projectId) (Some queries)] ++ l)%list.
    rewrite !updates_of_app. rewrite (evicted_updates _ _ Hevicted).
    unfold updates_of, calls in *.
    cbn [map call_of List.filter is_update app select_unprocessed completions_request].
    exact Htail'. }
  unfold after_request in Hafter. rewrite Ht. destruct res as [json | x].
  - intros Hfail. destruct (truthy (error json)) eqn:Herr.
    + destruct Hafter as [-> Hres]. split; [apply Hupd; reflexivity | exact Hres].
    + destruct Hfail as [Hfail | Hparse]; [discriminate |].
      unfold parsed_entries in Hafter. rewrite Hparse in Hafter.
      cbn [before_nullish map forallb List.length] in Hafter.
      destruct Hafter as (updates & -> & Hcalls & Hres).
      split; [| exact Hres]. apply Hupd.
      apply map_eq_nil in Hcalls. subst updates. reflexivity.
  - destruct Hafter as [-> Hres]. split; [apply Hupd; reflexivity | exact Hres].
Qed.

(** C8: when the completions endpoint answers without an error, the driver
    records [safeParseInt(json.usage.total_tokens, 0)] for the project under
    the source label query-stats. The call comes right after the request and
    before every update, whatever [JSON.parse] then makes of the completion
    text; when the text does not parse, it is the last call. *)
Theorem usage_recorded_before_parsing (projectId : string) (s : S) (e : event)
    (json : CompletionsJson) :
  In e (transcript world (processProjectQueryStats projectId) s) ->
  fetch_answer e = Some (Returned json) ->
  truthy (error json) = false ->
  exists (front after : list call) (byo : option string)
         (queries : list QueryStatData),
    calls (transcript world (processProjectQueryStats projectId) s)
      = (front
         ++ completions_request byo (trimQueries queries maxTokens)
         :: RecordProjectTokenCount projectId (geLLMInfoFromModel gpt_3_5_turbo)
              (safeParseInt (usage_total_tokens json) 0) "query-stats"
         :: after)%list /\
    List.filter is_update front = [] /\
    forallb is_update after = true /\
    (JSON_parse (completion_text json) = None -> after = []).
Proof.
  intros Hin Hans Herr.
  destruct (driver_fetch projectId s e _ Hin Hans)
    as (queries & eviction & byo & tail & _ & _ & Ht & Hevicted & Hafter).
  unfold after_request in Hafter. rewrite Herr in Hafter.
  destruct Hafter as (updates & -> & Hcalls & _).
  exists (select_unprocessed projectId :: calls eviction
          ++ [GetProjectConfigData projectId])%list,
         (calls updates), byo, queries.
  repeat split.
  - rewrite Ht. unfold calls. cbn [map call_of]. rewrite map_app.
    cbn [map call_of app]. rewrite <- app_assoc. reflexivity.
  - cbn [List.filter is_update select_unprocessed]. rewrite filter_app.
    change (List.filter is_update (calls eviction)) with (updates_of eviction).
    rewrite (evicted_updates _ _ Hevicted). reflexivity.
  - unfold calls. rewrite Hcalls. apply forallb_forall.
    intros c Hc. apply in_map_iff in Hc. destruct Hc as (entry & <- & _). reflexivity.
  - intros Hparse. unfold parsed_entries in Hcalls. rewrite Hparse in Hcalls.
    unfold calls. exact Hcalls.
Qed.

Lemma run_eta {A : Type} (p : prog A) (s : S) :
  run world p s = (transcript world p s, final_state world p s, result world p s).
Proof.
  unfold transcript, final_state, result.
  destruct (run world p s) as [[t s1] o]. reflexivity.
Qed.

Lemma transcript_bind {A B : Type} (p : prog A) (f : A -> prog B) (s : S) :
  transcript world (bind p f) s =
  (transcript world p s ++
   match result world p s with
   | Returned a => transcript world (f a) (final_state world p s)
   | Raised _ => []
   end)%list.
Proof.
  unfold transcript at 1. rewrite run_bind, (run_eta p s).
  destruct (result world p s) as [a | x].
  - rewrite (run_eta (f a)). reflexivity.
  - cbn [fst]. rewrite app_nil_r. reflexivity.
Qed.

Lemma result_bind {A B : Type} (p : prog A) (f : A -> prog B) (s : S) :
  result world (bind p f) s =
  match result world p s with
  | Returned a => result world (f a) (final_state world p s)
  | Raised x => Raised x
  end.
Proof.
  unfold result at 1. rewrite run_bind, (run_eta p s).
  destruct (result world p s) as [a | x].
  - rewrite (run_eta (f a)). reflexivity.
  - reflexivity.
Qed.

Lemma store_writes_justified_app (t1 t2 : list event) :
  store_writes_justified t1 -> store_writes_justified t2 ->
  store_writes_justified (t1 ++ t2).
Proof.
  intros H1 H2 e Hin. apply in_app_or in Hin.
  assert (Hmono : forall t, (forall x, In x t -> In x (t1 ++ t2)%list) ->
                    eviction_of t (call_of e) ->
                    eviction_of (t1 ++ t2) (call_of e)).
  { intros t Hsub (e' & queries & Hin' & Hsel & Hcall).
    exists e', queries. repeat split; auto. }
  destruct Hin as [Hin | Hin].
  - destruct (H1 e Hin) as [Hdel Hupd]. split; [| exact Hupd].
    intros Hd. apply (Hmono t1); [| auto].
    intros x Hx. apply in_or_app. left. exact Hx.
  - destruct (H2 e Hin) as [Hdel Hupd]. split; [| exact Hupd].
    intros Hd. apply (Hmono t2); [| auto].
    intros x Hx. apply in_or_app. right. exact Hx.
Qed.

Lemma store_writes_justified_nil : store_writes_justified [].
Proof. intros e []. Qed.

(** Every update of the driver is the update of an entry of the parsed
    completion text. *)
Lemma driver_updates (projectId : string) (s : S) (e : event) :
  In e (transcript world (processProjectQueryStats projectId) s) ->
  is_update (call_of e) = true ->
  exists (e_f : event) (json : CompletionsJson) (entries : list jsval) (entry : jsval),
    In e_f (transcript world (processProjectQueryStats projectId) s) /\
    fetch_answer e_f = Some (Returned json) /\
    parsed_entries (completion_text json) = Some entries /\
    In entry entries /\
    call_of e = entry_update entry.
Proof.
  intros Hin Hupd.
  destruct (driver_shape projectId s) as (answer & rest & _ & Ht & Hshape).
  rewrite Ht in *.
  assert (Hrest : In e rest).
  { destruct Hin as [<- | Hin]; [discriminate Hupd | exact Hin]. }
  destruct answer as [[| query queries] |];
    try (destruct Hshape as [-> _]; destruct Hrest).
  destruct Hshape as (eviction & byo & res & tail & -> & Hevicted & Hafter).
  apply in_app_or in Hrest.
  destruct Hrest as [Hev | [<- | [<- | Htail]]]; try discriminate Hupd.
  - exfalso. destruct Hevicted as [[_ ->] | [_ [r ->]]]; [destruct Hev |].
    destruct Hev as [<- | []]. discriminate Hupd.
  - unfold after_request in Hafter. destruct res as [json | x].
    + destruct (truthy (error json)).
      * destruct Hafter as [-> _]. destruct Htail.
      * destruct Hafter as (updates & -> & Hcalls & _).
        destruct Htail as [<- | Htail]; [discriminate Hupd |].
        destruct (in_updates _ _ _ Hcalls Htail) as (entry & Hentry & Hcall).
        apply in_before_nullish in Hentry.
        destruct (parsed_entries (completion_text json)) as [entries |] eqn:Hparsed;
          [| destruct Hentry].
        exists (Event (completions_request byo
                         (trimQueries (query :: queries) maxTokens))
                      (Returned json)), json, entries, entry.
        repeat split; try assumption.
        right. apply in_or_app. right. right. left. reflexivity.
    + destruct Hafter as [-> _]. destruct Htail.
Qed.

Lemma driver_writes_justified (projectId : string) (s : S) :
  store_writes_justified (transcript world (processProjectQueryStats projectId) s).
Proof.
  intros e Hin. split.
  - intros Hdel.
    destruct (driver_shape projectId s) as (answer & rest & _ & Ht & Hshape).
    rewrite Ht in *.
    assert (Hrest : In e rest).
    { destruct Hin as [<- | Hin]; [discriminate Hdel | exact Hin]. }
    destruct answer as [[| query queries] |];
      try (destruct Hshape as [-> _]; destruct Hrest).
    destruct Hshape as (eviction & byo & res & tail & -> & Hevicted & Hafter).
    apply in_app_or in Hrest.
    destruct Hrest as [Hev | [<- | [<- | Htail]]]; try discriminate Hdel.
    + destruct Hevicted as [[_ ->] | [_ [r ->]]]; [destruct Hev |].
      destruct Hev as [<- | []].
      exists (Event (select_unprocessed projectId) (Some (query :: queries))),
             (query :: queries).
      repeat split. left. reflexivity.
    + exfalso. unfold after_request in Hafter. destruct res as [json | x].
      * destruct (truthy (error json)).
        -- destruct Hafter as [-> _]. destruct Htail.
        -- destruct Hafter as (updates & -> & Hcalls & _).
           destruct Htail as [<- | Htail]; [discriminate Hdel |].
           destruct (in_updates _ _ _ Hcalls Htail) as (entry & _ & Hcall).
           rewrite Hcall in Hdel. discriminate.
      * destruct Hafter as [-> _]. destruct Htail.
  - intros Hupd.
    destruct (driver_updates projectId s e Hin Hupd)
      as (_ & _ & _ & entry & _ & _ & _ & _ & Hcall).
    rewrite Hcall. unfold marks_processed, entry_update. eauto.
Qed.

Lemma for_project_ids_justified (data : list (option string)) :
  forall (totalProcessed : nat) (s : S),
    store_writes_justified (transcript world (for_project_ids data totalProcessed) s).
Proof.
  induction data as [| project_id rest IH]; intros totalProcessed s.
  - apply store_writes_justified_nil.
  - cbn [for_project_ids]. destruct (present project_id); [| apply IH].
    rewrite transcript_bind. apply store_writes_justified_app.
    + apply driver_writes_justified.
    + destruct (result world (processProjectQueryStats (nullish_empty project_id)) s).
      * apply IH.
      * apply store_writes_justified_nil.
Qed.

Lemma transcript_await (c : call) (s : S) :
  transcript world (await c) s = [Event c (fst (world c s))].
Proof.
  unfold transcript, await. cbn [run]. destruct (world c s) as [r s1]. reflexivity.
Qed.

Lemma handler_writes_justified (req : NextApiRequest) (s : S) :
  store_writes_justified (transcript world (handler req) s).
Proof.
  unfold handler.
  destruct (negb (present (method req))
            || negb (includes allowedMethods (nullish_empty (method req)))).
  - apply store_writes_justified_nil.
  - cbv zeta. destruct (present (query_projectId req)).
    + rewrite transcript_bind. apply store_writes_justified_app.
      * apply driver_writes_justified.
      * destruct (result world _ s); apply store_writes_justified_nil.
    + rewrite transcript_bind. apply store_writes_justified_app.
      * rewrite transcript_await. intros e [<- | []]. split; discriminate.
      * destruct (result world _ s) as [[data |] | x];
          try apply store_writes_justified_nil.
        rewrite transcript_bind. apply store_writes_justified_app.
        -- apply for_project_ids_justified.
        -- destruct (result world _ _); apply store_writes_justified_nil.
Qed.

(** C9: in every execution of the job, a delete is issued only on
    [query_stats], for the ids of records that a select of the same execution
    returned and whose own estimated cost exceeds the overflow threshold; and
    every update writes [processed: true], never another value. *)
Theorem only_evictions_and_processed_true (req : NextApiRequest) (s : S) (e : event) :
  In e (transcript world (handler req) s) ->
  (forall from filters,
      call_of e = SupabaseDelete from filters ->
      exists e' queries,
        In e' (transcript world (handler req) s) /\
        select_answer e' = Some (Some queries) /\
        from = query_stats /\
        filters = [FIn "id" (overflowingQueryIds queries)] /\
        forall i, In i (overflowingQueryIds queries) ->
                  exists q, In q queries /\ id q = i /\
                            maxTokens < estimateQueryTokenCount q) /\
  (forall from values filters,
      call_of e = SupabaseUpdate from values filters ->
      In ("processed", JBool true) values /\
      forall v, In ("processed", v) values -> v = JBool true).
Proof.
  intros Hin.
  destruct (handler_writes_justified req s e Hin) as [Hdel Hupd]. split.
  - intros from filters Hcall.
    destruct Hdel as (e' & queries & Hin' & Hsel & Heq).
    { rewrite Hcall. reflexivity. }
    rewrite Hcall in Heq. injection Heq as -> ->.
    exists e', queries. repeat split; try assumption.
    intros i Hi. destruct (overflowingQueryIds_sound queries i Hi) as (q & Hq & Hid & Ho).
    exists q. repeat split; try assumption.
    unfold overflowing in Ho. apply negb_true_iff in Ho.
    apply Qnot_le_lt. intro Hle. apply Qle_bool_iff in Hle. congruence.
  - intros from values filters Hcall.
    destruct Hupd as (i & p & r & Heq).
    { rewrite Hcall. reflexivity. }
    rewrite Hcall in Heq. unfold update_of in Heq. injection Heq as -> -> ->.
    split; [left; reflexivity |].
    intros v [Hv | [Hv | [Hv | []]]]; try discriminate Hv.
    injection Hv as <-. reflexivity.
Qed.

Lemma guard_rejects (req : NextApiRequest) :
  method req <> Some "GET" ->
  negb (present (method req))
  || negb (includes allowedMethods (nullish_empty (method req))) = true.
Proof.
  intros Hnot. destruct (method req) as [m |]; [| reflexivity].
  cbn [present nullish_empty includes allowedMethods existsb].
  destruct (String.eqb m "GET") eqn:Hm.
  - apply String.eqb_eq in Hm. subst m. congruence.
  - cbn. apply orb_true_r.
Qed.

Lemma result_bind_ok (p : prog nat) (s : S) (r : NextApiResponse) :
  result world (processed <- p ;; Ret (ok processed)) s = Returned r ->
  exists processed, r = ok processed.
Proof.
  rewrite result_bind. destruct (result world p s) as [processed | x]; [| discriminate].
  cbn. intros H. injection H as <-. exists processed. reflexivity.
Qed.

(** C10: a request whose method is not GET (a missing method included) is
    answered at once, with no call made: status 405, the header [Allow] set
    to the allowed methods, which are GET alone, and a body that holds an
    error string. A GET request is never answered so: when the handler
    answers it, the status is 200. *)
Theorem handler_method_guard (req : NextApiRequest) (s : S) :
  (method req <> Some "GET" ->
   transcript world (handler req) s = [] /\
   exists r,
     result world (handler req) s = Returned r /\
     statusCode r = 405%nat /\
     headers r = [("Allow", ["GET"])] /\
     Data.error (sent r)
       = Some ("Method " ++ interpolate (method req) ++ " Not Allowed") /\
     Data.status (sent r) = None /\
     Data.processed (sent r) = None) /\
  (method req = Some "GET" ->
   forall r, result world (handler req) s = Returned r ->
             statusCode r = 200%nat /\ headers r = [] /\
             Data.error (sent r) = None).
Proof.
  split.
  - intros Hnot. unfold handler. rewrite (guard_rejects req Hnot).
    split; [reflexivity |]. eexists. split; [reflexivity |].
    repeat split; reflexivity.
  - intros Hget r. unfold handler. rewrite Hget.
    cbn [present nullish_empty includes allowedMethods existsb String.eqb
         Ascii.eqb Bool.eqb negb orb]. cbv zeta.
    destruct (present (query_projectId req)).
    + intros Hres. apply result_bind_ok in Hres. destruct Hres as [processed ->].
      repeat split; reflexivity.
    + rewrite result_bind.
      destruct (result world (await _) s) as [[data |] | x]; try discriminate.
      * intros Hres. apply result_bind_ok in Hres. destruct Hres as [processed ->].
        repeat split; reflexivity.
      * cbn. intros Hres. injection Hres as <-. repeat split; reflexivity.
Qed.

End DriverFacts.

Section StoreFacts.

Context {imports : Imports} {runtime : Runtime}.

Lemma store_update_entry (i p r : string) (rows : list Row) :
  store_update
    [("processed", JBool true); ("prompt", JStr p); ("response", JStr r)]
    [FEq "id" (JStr i)] rows
  = Some (map (anonymized i p r) rows).
Proof.
  induction rows as [| x rest IH]; [reflexivity |].
  cbn [store_update map]. rewrite IH.
  cbn [passes forallb holds cell String.eqb Ascii.eqb Bool.eqb same andb].
  rewrite andb_true_r. unfold anonymized.
  destruct (String.eqb (row_id x) i); reflexivity.
Qed.

(** The table after a run that fetches some records and receives a single
    well-formed entry: the eviction, then the update of the rows whose id is
    the id of the entry. *)
Lemma backend_final_state (sv : Services) (rows : list Row) (projectId : string)
    (json : CompletionsJson) (i p r : string) :
  (forall c, failing sv c = None) ->
  (forall url authorization payload,
      completions sv url authorization payload = Returned json) ->
  truthy (error json) = false ->
  JSON_parse (completion_text json) = Some (JArr [entry_of i p r]) ->
  let queries :=
    store_select
      [FMatch [("project_id", JStr projectId); ("processed", JBool false)]] 10 rows in
  queries <> [] ->
  final_state (backend sv) (processProjectQueryStats projectId) rows
  = map (anonymized i p r)
        (if (0 <? List.length (overflowingQueryIds queries))%nat
         then store_delete [FIn "id" (overflowingQueryIds queries)] rows
         else rows).
Proof.
  intros Hfail Hreply Herr Hparse queries Hsome.
  unfold final_state, processProjectQueryStats.
  cbn [await bind run backend]. rewrite Hfail.
  fold queries. destruct queries as [| query rest] eqn:Hqueries; [congruence |].
  rewrite <- Hqueries. clear Hqueries Hsome query rest. clearbody queries.
  unfold completion_text in Hparse.
  assert (Hupdate : forall rows0 : list Row,
             snd (fst (run (backend sv)
                         (parse_and_update (getCompletionsResponseText json gpt_3_5_turbo))
                         rows0))
             = map (anonymized i p r) rows0).
  { intros rows0. unfold parse_and_update. rewrite Hparse.
    cbn [try_catch bind lift length_member iterate for_entries get_member entry_of
         lookup_member String.eqb Ascii.eqb Bool.eqb await update_of run backend].
    rewrite Hfail. rewrite store_update_entry. reflexivity. }
  destruct (0 <? List.length (overflowingQueryIds queries))%nat;
    cbn [bind run backend]; rewrite ?Hfail; cbn [bind run backend];
    rewrite Hreply; cbn [lift bind]; rewrite Herr; cbn [run backend];
    match goal with
    | |- context [run (backend sv) (parse_and_update ?text) ?rows0] =>
        specialize (Hupdate rows0);
        destruct (run (backend sv) (parse_and_update text) rows0) as [[t s2] o]
    end;
    exact Hupdate.
Qed.

(** A row whose id a returned entry names, and that the eviction leaves in
    place, ends up processed with the returned texts, whatever its project
    and whether or not it was fetched; its other columns keep their values. *)
Lemma backend_marks_named_row (sv : Services) (rows : list Row) (projectId : string)
    (json : CompletionsJson) (i p r : string) (x : Row) :
  (forall c, failing sv c = None) ->
  (forall url authorization payload,
      completions sv url authorization payload = Returned json) ->
  truthy (error json) = false ->
  JSON_parse (completion_text json) = Some (JArr [entry_of i p r]) ->
  let queries :=
    store_select
      [FMatch [("project_id", JStr projectId); ("processed", JBool false)]] 10 rows in
  queries <> [] ->
  In x rows ->
  row_id x = i ->
  ~ In i (overflowingQueryIds queries) ->
  In {| row_id := row_id x; row_project_id := row_project_id x;
        row_prompt := Some p; row_response := Some r;
        row_processed := true; row_created_at := row_created_at x |}
     (final_state (backend sv) (processProjectQueryStats projectId) rows).
Proof.
  intros Hfail Hreply Herr Hparse queries Hsome Hx Hid Hkept.
  rewrite (backend_final_state sv rows projectId json i p r Hfail Hreply Herr Hparse Hsome).
  fold queries.
  assert (Hmark : anonymized i p r x
                  = {| row_id := row_id x; row_project_id := row_project_id x;
                       row_prompt := Some p; row_response := Some r;
                       row_processed := true; row_created_at := row_created_at x |}).
  { unfold anonymized. rewrite Hid, String.eqb_refl. reflexivity. }
  rewrite <- Hmark. apply in_map.
  destruct (0 <? List.length (overflowingQueryIds queries))%nat; [| exact Hx].
  unfold store_delete. apply filter_In. split; [exact Hx |].
  apply negb_true_iff.
  cbn [passes forallb holds cell String.eqb Ascii.eqb Bool.eqb same].
  rewrite andb_true_r. rewrite Hid.
  destruct (existsb (fun s => String.eqb i s) (overflowingQueryIds queries)) eqn:Hex;
    [| reflexivity].
  exfalso. apply existsb_exists in Hex. destruct Hex as (s & Hs & Heq).
  apply String.eqb_eq in Heq. subst s. exact (Hkept Hs).
Qed.

End StoreFacts.

Section UpdateFacts.

Context {imports : Imports} {runtime : Runtime}.

(** C7: every update of the driver comes from one entry of the successfully
    parsed completion text and from nothing else: it is issued on
    [query_stats] with the single filter [id = entry.id] (no filter on the
    project, none on the batch submitted), and it writes exactly the columns
    [processed] (true), [prompt] and [response] with the values of the entry.
    So, on the store, a row whose id a returned entry names is marked
    processed with the returned texts whether or not it was fetched or
    belongs to the project, and its other columns keep their values. *)
Theorem updates_match_by_id_alone :
  (forall (S : Type) (world : env S) (projectId : string) (s : S) (e : event)
          (from : table) (values : list (string * jsval)) (filters : list filter),
      In e (transcript world (processProjectQueryStats projectId) s) ->
      call_of e = SupabaseUpdate from values filters ->
      exists (e_f : event) (json : CompletionsJson) (entries : list jsval)
             (entry : jsval),
        In e_f (transcript world (processProjectQueryStats projectId) s) /\
        fetch_answer e_f = Some (Returned json) /\
        parsed_entries (completion_text json) = Some entries /\
        In entry entries /\
        from = query_stats /\
        values = [("processed", JBool true);
                  ("prompt", member entry "prompt");
                  ("response", member entry "response")] /\
        filters = [FEq "id" (member entry "id")]) /\
  (forall (sv : Services) (rows : list Row) (projectId : string)
          (json : CompletionsJson) (i p r : string) (x : Row),
      (forall c, failing sv c = None) ->
      (forall url authorization payload,
          completions sv url authorization payload = Returned json) ->
      truthy (error json) = false ->
      JSON_parse (completion_text json) = Some (JArr [entry_of i p r]) ->
      store_select
        [FMatch [("project_id", JStr projectId); ("processed", JBool false)]] 10 rows
        <> [] ->
      In x rows ->
      row_id x = i ->
      ~ In i (overflowingQueryIds
                (store_select
                   [FMatch [("project_id", JStr projectId); ("processed", JBool false)]]
                   10 rows)) ->
      In {| row_id := row_id x; row_project_id := row_project_id x;
            row_prompt := Some p; row_response := Some r;
            row_processed := true; row_created_at := row_created_at x |}
         (final_state (backend sv) (processProjectQueryStats projectId) rows)).
Proof.
  split.
  - intros S world projectId s e from values filters Hin Hcall.
    destruct (driver_updates world projectId s e Hin)
      as (e_f & json & entries & entry & Hf & Hans & Hparsed & Hentry & Heq).
    { rewrite Hcall. reflexivity. }
    exists e_f, json, entries, entry.
    rewrite Hcall in Heq. unfold entry_update, update_of in Heq.
    injection Heq as -> -> ->.
    repeat split; assumption.
  - intros sv rows projectId json i p r x Hfail Hreply Herr Hparse Hsome Hx Hid Hkept.
    apply (backend_marks_named_row sv rows projectId json i p r x); assumption.
Qed.

End UpdateFacts.

(** ** Further facts on the greedy trim *)

Section MoreTrimFacts.

Context {imports : Imports} {runtime : Runtime}.

(** A list whose running total stays below the budget is taken whole. *)
Lemma trimQueries_for_all_below (l : list QueryStatData) (budget : Q) :
  forall (t : Q) (acc : list QueryStatData),
    (forall j, (1 <= j <= List.length l)%nat ->
               running_total t (firstn j l) < budget) ->
    trimQueries_for l budget t acc = (acc ++ l)%list.
Proof.
  induction l as [| q rest IH]; intros t acc Hbelow.
  - simpl. rewrite app_nil_r. reflexivity.
  - cbn [trimQueries_for].
    assert (Hq : t + estimateQueryTokenCount q < budget).
    { apply (Hbelow 1%nat). simpl. lia. }
    destruct (Qle_bool budget (t + estimateQueryTokenCount q)) eqn:Hcmp.
    + apply Qle_bool_iff in Hcmp. lra.
    + rewrite IH.
      * rewrite <- app_assoc. reflexivity.
      * intros j Hj. apply (Hbelow (S j)). simpl. lia.
Qed.

Lemma running_total_nonneg_step (l : list QueryStatData) :
  (forall text, 0 <= approximatedTokenCount text) ->
  forall (t : Q) (j : nat), running_total t (firstn j l) <= running_total t l.
Proof.
  intros Hnonneg. induction l as [| q rest IH]; intros t j.
  - rewrite firstn_nil. apply Qle_refl.
  - destruct j as [| j].
    + cbn [firstn]. rewrite running_total_cons.
      assert (Hq : 0 <= estimateQueryTokenCount q) by apply Hnonneg.
      specialize (IH (t + estimateQueryTokenCount q) 0%nat).
      cbn [firstn] in IH. unfold running_total at 1 in IH. cbn [fold_left] in IH.
      unfold running_total at 1. cbn [fold_left]. lra.
    + cbn [firstn]. rewrite !running_total_cons. apply IH.
Qed.

(** X1: trimming is idempotent: a batch that the trim returned is returned
    unchanged when it is trimmed again with the same budget. *)
Theorem trimQueries_idempotent (queries : list QueryStatData) (budget : Q) :
  trimQueries (trimQueries queries budget) budget = trimQueries queries budget.
Proof.
  destruct (trimQueries_prefix queries budget) as (k & Hk & Heq & Hbelow & _).
  rewrite Heq. unfold trimQueries at 1.
  rewrite trimQueries_for_all_below; [reflexivity |].
  exact (stays_below_firstn queries budget k Hk Hbelow).
Qed.

(** X2: the trim is monotone in the budget: with a smaller budget the batch
    is a prefix of the batch obtained with a larger one. *)
Theorem trimQueries_monotone (queries : list QueryStatData) (small large : Q) :
  small <= large ->
  exists k, trimQueries queries small = firstn k (trimQueries queries large).
Proof.
  intros Hle.
  destruct (trimQueries_prefix queries small) as (k1 & Hk1 & Heq1 & Hbelow1 & _).
  destruct (trimQueries_prefix queries large) as (k2 & Hk2 & Heq2 & _ & Hstop2).
  exists k1. rewrite Heq1, Heq2, firstn_firstn.
  destruct (Nat.le_gt_cases k1 k2) as [Hk | Hk].
  - replace (Nat.min k1 k2) with k1 by lia. reflexivity.
  - exfalso.
    assert (Hlen : (k2 < List.length queries)%nat) by lia.
    specialize (Hstop2 Hlen).
    assert (Hlt : total_cost (firstn (S k2) queries) < small) by (apply Hbelow1; lia).
    lra.
Qed.

(** X3: with estimates that are never negative, a fetched list whose total
    estimated cost is below the budget is submitted whole. *)
Theorem trimQueries_all_fit (queries : list QueryStatData) (budget : Q) :
  (forall text, 0 <= approximatedTokenCount text) ->
  total_cost queries < budget ->
  trimQueries queries budget = queries.
Proof.
  intros Hnonneg Htotal. unfold trimQueries.
  rewrite trimQueries_for_all_below; [reflexivity |].
  intros j _.
  assert (Hle := running_total_nonneg_step queries Hnonneg 0 j).
  unfold total_cost in Htotal. lra.
Qed.

Lemma trimQueries_first_at_budget (q : QueryStatData) (rest : list QueryStatData)
    (budget : Q) :
  budget <= estimateQueryTokenCount q ->
  trimQueries (q :: rest) budget = [].
Proof.
  intros Hle. unfold trimQueries. cbn [trimQueries_for].
  assert (Hcmp : Qle_bool budget (0 + estimateQueryTokenCount q) = true).
  { apply Qle_bool_iff. lra. }
  rewrite Hcmp. reflexivity.
Qed.

(** X4: the eviction test is strict and the trim test is not: a record whose
    estimate equals the budget is not among the overflowing ones, and fetched
    first it leaves the batch empty. *)
Theorem record_at_budget_kept_and_blocking (q : QueryStatData)
    (rest : list QueryStatData) (budget : Q) :
  estimateQueryTokenCount q == budget ->
  overflowing budget q = false /\
  trimQueries (q :: rest) budget = [].
Proof.
  intros Heq. split.
  - unfold overflowing. apply negb_false_iff. apply Qle_bool_iff. lra.
  - apply trimQueries_first_at_budget. lra.
Qed.

(** X5: with estimates that are never negative, an overflowing record blocks
    what was fetched after it: the batch is a prefix of the records fetched
    before it. *)
Theorem overflowing_record_blocks_the_rest (before after : list QueryStatData)
    (q : QueryStatData) :
  (forall text, 0 <= approximatedTokenCount text) ->
  overflowing maxTokens q = true ->
  exists k, (k <= List.length before)%nat /\
            trimQueries (before ++ q :: after) maxTokens = firstn k before.
Proof.
  intros Hnonneg Hover.
  assert (Hnot := overflowing_not_trimmed (before ++ q :: after) q Hnonneg Hover).
  destruct (trimQueries_prefix (before ++ q :: after) maxTokens)
    as (k & _ & Heq & _ & _).
  rewrite Heq in *. exists k.
  destruct (Nat.le_gt_cases k (List.length before)) as [Hk | Hk].
  - split; [exact Hk |]. rewrite firstn_app.
    replace (k - List.length before)%nat with 0%nat by lia.
    cbn [firstn]. rewrite app_nil_r. reflexivity.
  - exfalso. apply Hnot. rewrite firstn_app. apply in_or_app. right.
    destruct (k - List.length before)%nat as [| d] eqn:Hd; [lia |].
    left. reflexivity.
Qed.

(** X6: with estimates that are never negative, every record of the batch
    has, on its own, an estimate strictly below the budget. *)
Theorem batch_members_below_budget (queries : list QueryStatData) (budget : Q)
    (q : QueryStatData) :
  (forall text, 0 <= approximatedTokenCount text) ->
  In q (trimQueries queries budget) ->
  estimateQueryTokenCount q < budget.
Proof.
  intros Hnonneg Hq.
  apply (trimQueries_for_members queries budget Hnonneg 0 []); try assumption.
  - apply Qle_refl.
  - intros q' [].
Qed.

(** X7: the ids handed to the delete are the ids of the fetched records that
    overflow, in their fetched order, an id as many times as it was fetched. *)
Theorem overflowing_ids_in_fetch_order (queries : list QueryStatData) :
  overflowingQueryIds queries
  = map id (List.filter (overflowing maxTokens) queries).
Proof.
  unfold overflowingQueryIds.
  induction queries as [| q rest IH]; cbn [map filter_isPresent List.filter];
    [reflexivity |].
  destruct (overflowing maxTokens q); cbn [map]; rewrite IH; reflexivity.
Qed.

End MoreTrimFacts.

(** ** Further facts on the driver *)

Section MoreDriverFacts.

Context {imports : Imports} {runtime : Runtime}.
Context {S : Type} (world : env S).

Lemma updates_of_request_tail (projectId : string) (queries : list QueryStatData)
    (eviction : list event) (byo : option string) (res : outcome CompletionsJson)
    (tail : list event) :
  evicted queries eviction ->
  updates_of
    (Event (select_unprocessed projectId) (Some queries)
     :: eviction
     ++ Event (GetProjectConfigData projectId) byo
     :: Event (completions_request byo (trimQueries queries maxTokens)) res
     :: tail) = updates_of tail.
Proof.
  intros Hevicted.
  change (Event (select_unprocessed projectId) (Some queries) :: ?l)
    with ([Event (select_unprocessed projectId) (Some queries)] ++ l)%list.
  rewrite !updates_of_app. rewrite (evicted_updates _ _ Hevicted).
  reflexivity.
Qed.

(** What an answered request without an error leads to: the updates of the
    entries before the first null one, and the count. *)
Lemma driver_after_parse (projectId : string) (s : S) (e : event)
    (json : CompletionsJson) :
  In e (transcript world (processProjectQueryStats projectId) s) ->
  fetch_answer e = Some (Returned json) ->
  truthy (error json) = false ->
  let entries :=
    match parsed_entries (completion_text json) with
    | Some entries => entries
    | None => []
    end in
  updates_of (transcript world (processProjectQueryStats projectId) s)
    = map entry_update (before_nullish entries) /\
  result world (processProjectQueryStats projectId) s
    = Returned (if forallb (fun entry => negb (nullish entry)) entries
                then List.length entries else 0%nat).
Proof.
  intros Hin Hans Herr entries.
  destruct (driver_fetch world projectId s e _ Hin Hans)
    as (queries & eviction & byo & tail & _ & _ & Ht & Hevicted & Hafter).
  unfold after_request in Hafter. rewrite Herr in Hafter.
  destruct Hafter as (updates & -> & Hcalls & Hres).
  split; [| exact Hres].
  rewrite Ht, (updates_of_request_tail _ _ _ _ _ _ Hevicted).
  unfold updates_of, calls. cbn [map call_of List.filter is_update record_usage].
  rewrite Hcalls. apply filter_updates_all.
Qed.

(** X8: when the completion text parses to a value that is not iterable
    (null, a boolean, a number, an object), the [catch] swallows the
    TypeError: no update is issued and the driver returns 0. *)
Theorem not_iterable_updates_nothing (projectId : string) (s : S) (e : event)
    (json : CompletionsJson) (v : jsval) :
  In e (transcript world (processProjectQueryStats projectId) s) ->
  fetch_answer e = Some (Returned json) ->
  truthy (error json) = false ->
  JSON_parse (completion_text json) = Some v ->
  is_iterable v = false ->
  updates_of (transcript world (processProjectQueryStats projectId) s) = [] /\
  result world (processProjectQueryStats projectId) s = Returned 0%nat.
Proof.
  intros Hin Hans Herr Hparse Hiter.
  destruct (driver_after_parse projectId s e json Hin Hans Herr) as [Hupd Hres].
  unfold parsed_entries in Hupd, Hres. rewrite Hparse in Hupd, Hres.
  assert (Hraise : exists x, iterate v = Raised x).
  { destruct v; try discriminate Hiter; eexists; reflexivity. }
  destruct Hraise as [x Hx]. rewrite Hx in Hupd, Hres.
  split; assumption.
Qed.

Lemma before_nullish_stop (before after : list jsval) :
  forallb (fun entry => negb (nullish entry)) before = true ->
  before_nullish (before ++ JNull :: after) = before /\
  forallb (fun entry => negb (nullish entry)) (before ++ JNull :: after) = false.
Proof.
  induction before as [| x rest IH]; cbn [forallb app before_nullish].
  - intros _. split; reflexivity.
  - destruct (nullish x); cbn [negb andb]; [discriminate |].
    intros H. destruct (IH H) as [-> ->]. split; reflexivity.
Qed.

(** X9: when the completion text parses to an array with a null entry, the
    entries before the first null one are updated, the entries after it are
    not, and the driver returns 0 although updates were issued. *)
Theorem null_entry_stops_the_updates (projectId : string) (s : S) (e : event)
    (json : CompletionsJson) (before after : list jsval) :
  In e (transcript world (processProjectQueryStats projectId) s) ->
  fetch_answer e = Some (Returned json) ->
  truthy (error json) = false ->
  JSON_parse (completion_text json) = Some (JArr (before ++ JNull :: after)) ->
  forallb (fun entry => negb (nullish entry)) before = true ->
  updates_of (transcript world (processProjectQueryStats projectId) s)
    = map entry_update before /\
  result world (processProjectQueryStats projectId) s = Returned 0%nat.
Proof.
  intros Hin Hans Herr Hparse Hbefore.
  destruct (driver_after_parse projectId s e json Hin Hans Herr) as [Hupd Hres].
  unfold parsed_entries in Hupd, Hres. rewrite Hparse in Hupd, Hres.
  cbn [iterate] in Hupd, Hres.
  destruct (before_nullish_stop before after Hbefore) as [Hstop Hall].
  rewrite Hstop in Hupd. rewrite Hall in Hres.
  split; assumption.
Qed.

Lemma entry_updates_only (entries : list jsval) (f : call -> bool) :
  (forall entry, f (entry_update entry) = false) ->
  List.filter f (map entry_update entries) = [].
Proof.
  intros Hf. induction entries as [| x rest IH]; cbn [map List.filter];
    [reflexivity |]. rewrite Hf. exact IH.
Qed.

(** X10: an execution that fetched some records makes its calls in this
    order: the select, one delete when and only when some fetched record
    overflows, the read of the project configuration, and one request whose
    prompt is built from the trim of the fetched list; no other request and
    no other delete follows. *)
Theorem driver_call_sequence (projectId : string) (s : S)
    (queries : list QueryStatData) :
  fst (world (select_unprocessed projectId) s) = Some queries ->
  queries <> [] ->
  exists (byo : option string) (tail : list call),
    calls (transcript world (processProjectQueryStats projectId) s)
      = (select_unprocessed projectId
         :: (if (0 <? List.length (overflowingQueryIds queries))%nat
             then [delete_overflowing queries] else [])
         ++ GetProjectConfigData projectId
         :: completions_request byo (trimQueries queries maxTokens)
         :: tail)%list /\
    List.filter (fun c => is_fetch c || is_delete c) tail = [].
Proof.
  intros Hanswer Hsome.
  destruct (driver_shape world projectId s) as (answer & rest & Heq & Ht & Hshape).
  rewrite Hanswer in Heq. subst answer.
  destruct queries as [| query queries']; [congruence |].
  destruct Hshape as (eviction & byo & res & tail & -> & Hevicted & Hafter).
  exists byo, (calls tail). split.
  - rewrite Ht. unfold calls. cbn [map call_of]. rewrite map_app. cbn [map call_of].
    f_equal. f_equal.
    destruct Hevicted as [[-> ->] | [Hids [r ->]]]; [reflexivity |].
    destruct (overflowingQueryIds (query :: queries')); [congruence | reflexivity].
  - unfold after_request in Hafter. destruct res as [json | x].
    + destruct (truthy (error json)).
      * destruct Hafter as [-> _]. reflexivity.
      * destruct Hafter as (updates & -> & Hcalls & _).
        unfold calls. cbn [map call_of List.filter record_usage is_fetch is_delete orb].
        rewrite Hcalls. apply entry_updates_only. reflexivity.
    + destruct Hafter as [-> _]. reflexivity.
Qed.

(** X11: when the request rejects or its answer carries an error, no token
    usage is recorded for the project. *)
Theorem no_usage_recorded_on_error (projectId : string) (s : S) (e : event)
    (res : outcome CompletionsJson) :
  In e (transcript world (processProjectQueryStats projectId) s) ->
  fetch_answer e = Some res ->
  match res with
  | Returned json => truthy (error json) = true
  | Raised _ => True
  end ->
  List.filter is_record (calls (transcript world (processProjectQueryStats projectId) s))
    = [].
Proof.
  intros Hin Hans Hfail.
  destruct (driver_fetch world projectId s e _ Hin Hans)
    as (queries & eviction & byo & tail & _ & _ & Ht & Hevicted & Hafter).
  assert (Htail : tail = []).
  { unfold after_request in Hafter. destruct res as [json | x].
    - rewrite Hfail in Hafter. destruct Hafter as [-> _]. reflexivity.
    - destruct Hafter as [-> _]. reflexivity. }
  subst tail. rewrite Ht. unfold calls. cbn [map call_of List.filter is_record
                                             select_unprocessed].
  rewrite map_app, filter_app. cbn [map call_of List.filter is_record
                                    completions_request app].
  rewrite app_nil_r.
  destruct Hevicted as [[_ ->] | [_ [r ->]]]; reflexivity.
Qed.


Lemma config_answer_is_config (e : event) (byo : option string) :
  config_answer e = Some byo ->
  exists projectId, call_of e = GetProjectConfigData projectId.
Proof.
  destruct e as [c r]; destruct c; cbn; try discriminate.
  intros _. eexists. reflexivity.
Qed.

(** X13: the request is authorised with the key of the project when the
    configuration holds a non-empty one, with the key of the process
    environment otherwise, and with an empty key when there is neither. *)
Theorem request_uses_project_key_first (projectId : string) (s : S) (e : event)
    (byo : option string) :
  In e (transcript world (processProjectQueryStats projectId) s) ->
  config_answer e = Some byo ->
  exists payload,
    In (Fetch (getCompletionsUrl gpt_3_5_turbo) (bearer byo OPENAI_API_KEY) payload)
       (calls (transcript world (processProjectQueryStats projectId) s)).
Proof.
  intros Hin Hans.
  destruct (config_answer_is_config e byo Hans) as [pid Hcall].
  destruct (driver_shape world projectId s) as (answer & rest & _ & Ht & Hshape).
  rewrite Ht in Hin.
  assert (Hrest : In e rest).
  { destruct Hin as [<- | Hin]; [discriminate Hcall | exact Hin]. }
  destruct answer as [[| query queries] |];
    try (destruct Hshape as [-> _]; destruct Hrest).
  destruct Hshape as (eviction & byo0 & res & tail & -> & Hevicted & Hafter).
  assert (Hbyo : byo0 = byo).
  { apply in_app_or in Hrest.
    destruct Hrest as [Hev | [<- | [<- | Htail]]].
    - exfalso. destruct Hevicted as [[_ ->] | [_ [r ->]]]; [destruct Hev |].
      destruct Hev as [<- | []]. discriminate Hcall.
    - cbn in Hans. congruence.
    - discriminate Hcall.
    - exfalso. unfold after_request in Hafter. destruct res as [json | x].
      + destruct (truthy (error json)).
        * destruct Hafter as [-> _]. destruct Htail.
        * destruct Hafter as (updates & -> & Hcalls & _).
          destruct Htail as [<- | Htail]; [discriminate Hcall |].
          destruct (in_updates _ _ _ Hcalls Htail) as (entry & _ & Hupd).
          rewrite Hupd in Hcall. discriminate Hcall.
      + destruct Hafter as [-> _]. destruct Htail. }
  subst byo0.
  exists (payload_for gpt_3_5_turbo
            (prompt_for (trimQueries (query :: queries) maxTokens))).
  rewrite Ht. unfold calls. cbn [map call_of]. rewrite map_app. cbn [map call_of].
  right. apply in_or_app. right. right. left.
  unfold completions_request, bearer, or_else, nullish_empty.
  destruct byo as [key |]; [destruct (String.eqb key "") |]; reflexivity.
Qed.

End MoreDriverFacts.

(** ** Further facts on the handler *)

Section MoreHandlerFacts.

Context {imports : Imports} {runtime : Runtime}.
Context {S : Type} (world : env S).

Lemma result_await (c : call) (s : S) :
  result world (await c) s = Returned (fst (world c s)).
Proof.
  unfold result, await. cbn [run]. destruct (world c s) as [r s1]. reflexivity.
Qed.

Lemma final_state_await (c : call) (s : S) :
  final_state world (await c) s = snd (world c s).
Proof.
  unfold final_state, await. cbn [run]. destruct (world c s) as [r s1]. reflexivity.
Qed.









(** X15: a GET request that names a project runs the driver for that project
    and nothing else: the calls are the calls of the driver, the answer is
    200 with the count of the driver, and a rejection of the driver is the
    rejection of the handler. *)
Theorem handler_single_project (req : NextApiRequest) (s : S) :
  method req = Some "GET" ->
  present (query_projectId req) = true ->
  transcript world (handler req) s
    = transcript world
        (processProjectQueryStats (nullish_empty (query_projectId req))) s /\
  result world (handler req) s
    = match result world
              (processProjectQueryStats (nullish_empty (query_projectId req))) s with
      | Returned processed => Returned (ok processed)
      | Raised x => Raised x
      end.
Proof.
  intros Hget Hpid. unfold handler. rewrite Hget, Hpid.
  cbn [present nullish_empty includes allowedMethods existsb String.eqb
       Ascii.eqb Bool.eqb negb orb]. cbv zeta.
  rewrite transcript_bind, result_bind.
  destruct (result world _ s); cbn; [| split; [| reflexivity]];
    rewrite ?app_nil_r; try split; reflexivity.
Qed.

(** X16: the loop over the projects skips the rows of the view whose project
    id is null or empty: it runs as it does on the list without them. *)
Theorem loop_skips_absent_project_ids (data : list (option string)) :
  forall (totalProcessed : nat) (s : S),
    run world (for_project_ids data totalProcessed) s
    = run world (for_project_ids (List.filter present data) totalProcessed) s.
Proof.
  induction data as [| project_id rest IH]; intros totalProcessed s.
  - reflexivity.
  - cbn [for_project_ids List.filter].
    destruct (present project_id) eqn:Hp; [| apply IH].
    cbn [for_project_ids]. rewrite Hp, !run_bind.
    destruct (run world (processProjectQueryStats (nullish_empty project_id)) s)
      as [[t1 s1] [processed | x]]; [| reflexivity].
    rewrite IH. reflexivity.
Qed.


(** X18: in the loop over the projects, a run of the driver that rejects ends
    the invocation: the handler rejects with the same error and the projects
    after it are not visited. *)
Theorem rejection_ends_the_invocation (req : NextApiRequest) (s : S)
    (project_id : option string) (rest : list (option string)) (x : exn) :
  method req = Some "GET" ->
  present (query_projectId req) = false ->
  fst (world select_project_ids s) = Some (project_id :: rest) ->
  present project_id = true ->
  result world (processProjectQueryStats (nullish_empty project_id))
    (snd (world select_project_ids s)) = Raised x ->
  result world (handler req) s = Raised x /\
  calls (transcript world (handler req) s)
    = select_project_ids
      :: calls (transcript world (processProjectQueryStats (nullish_empty project_id))
                  (snd (world select_project_ids s))).
Proof.
  intros Hget Hpid Hdata Hpresent Hdriver. unfold handler. rewrite Hget, Hpid.
  cbn [present nullish_empty includes allowedMethods existsb String.eqb
       Ascii.eqb Bool.eqb negb orb]. cbv zeta.
  fold select_project_ids.
  rewrite result_bind, transcript_bind, result_await, transcript_await,
    final_state_await, Hdata.
  rewrite result_bind, transcript_bind. cbn [for_project_ids]. rewrite Hpresent.
  rewrite result_bind, transcript_bind, Hdriver.
  split; [reflexivity |].
  unfold calls. cbn [map call_of app]. rewrite !app_nil_r. reflexivity.
Qed.

(** X19: a GET request without a project, when the view returns null or no
    row, is answered 200 with a count of 0 after that one select. *)
Theorem nothing_to_do_answers_0 (req : NextApiRequest) (s : S) :
  method req = Some "GET" ->
  present (query_projectId req) = false ->
  fst (world select_project_ids s) = None \/
  fst (world select_project_ids s) = Some [] ->
  result world (handler req) s = Returned (ok 0) /\
  calls (transcript world (handler req) s) = [select_project_ids].
Proof.
  intros Hget Hpid Hdata. unfold handler. rewrite Hget, Hpid.
  cbn [present nullish_empty includes allowedMethods existsb String.eqb
       Ascii.eqb Bool.eqb negb orb]. cbv zeta.
  fold select_project_ids.
  rewrite result_bind, transcript_bind, result_await, transcript_await,
    final_state_await.
  destruct Hdata as [-> | ->]; split; reflexivity.
Qed.

End MoreHandlerFacts.

(** ** Further facts on the store *)

Section InvariantFacts.

Context {S : Type} (world : env S).
Variable Inv : S -> Prop.
Variable P : call -> Prop.
Hypothesis preserved : forall c s, P c -> Inv s -> Inv (snd (world c s)).

(** An invariant of the environment that every call of a transcript
    preserves holds at the end of the execution. *)
Lemma run_invariant {A : Type} (p : prog A) :
  forall s,
    Inv s ->
    (forall e, In e (transcript world p s) -> P (call_of e)) ->
    Inv (final_state world p s).
Proof.
  induction p as [a | x | c k IH]; intros s Hs Hcalls; try exact Hs.
  unfold transcript, final_state in *. cbn [run] in *.
  specialize (preserved c s). destruct (world c s) as [r s1].
  specialize (IH r s1).
  destruct (run world (k r) s1) as [[t s2] o]. cbn [fst snd] in *.
  apply IH.
  - apply preserved; [| exact Hs]. apply (Hcalls (Event c r)). left. reflexivity.
  - intros e He. apply Hcalls. right. exact He.
Qed.

(** The same when a call of the transcript establishes the invariant. *)
Lemma run_establishes {A : Type} (c0 : call) (p : prog A) :
  (forall s, Inv (snd (world c0 s))) ->
  forall s,
    In c0 (calls (transcript world p s)) ->
    (forall e, In e (transcript world p s) -> P (call_of e)) ->
    Inv (final_state world p s).
Proof.
  intros Hestablish.
  induction p as [a | x | c k IH]; intros s Hin Hcalls; try destruct Hin.
  unfold calls, transcript, final_state in *. cbn [run] in *.
  destruct (world c s) as [r s1] eqn:Hw.
  pose proof (run_invariant (k r) s1) as Hrest.
  unfold transcript, final_state in Hrest.
  specialize (IH r s1).
  destruct (run world (k r) s1) as [[t s2] o]. cbn [fst snd map call_of] in *.
  destruct Hin as [Heq | Hin].
  - subst c. apply Hrest.
    + specialize (Hestablish s). rewrite Hw in Hestablish. exact Hestablish.
    + intros e He. apply Hcalls. right. exact He.
  - apply IH; [exact Hin |]. intros e He. apply Hcalls. right. exact He.
Qed.

End InvariantFacts.

Section MoreStoreFacts.

Context {imports : Imports} {runtime : Runtime}.

Lemma same_identity_refl (x : Row) : same_identity x x.
Proof. repeat split; auto. Qed.

Lemma stems_from_refl (rows : list Row) : stems_from rows rows.
Proof. intros y Hy. exists y. split; [exact Hy | apply same_identity_refl]. Qed.

Lemma stems_from_trans (a b c : list Row) :
  stems_from a b -> stems_from b c -> stems_from a c.
Proof.
  intros Hab Hbc z Hz.
  destruct (Hbc z Hz) as (y & Hy & Hyz).
  destruct (Hab y Hy) as (x & Hx & Hxy).
  exists x. split; [exact Hx |].
  destruct Hxy as (H1 & H2 & H3 & H4), Hyz as (G1 & G2 & G3 & G4).
  repeat split; try congruence. auto.
Qed.

Lemma set_columns_identity (p r : jsval) (x y : Row) :
  set_columns [("processed", JBool true); ("prompt", p); ("response", r)] x = Some y ->
  same_identity x y.
Proof.
  cbn [set_columns set_column String.eqb Ascii.eqb Bool.eqb].
  destruct p; cbn [set_text]; try discriminate;
    destruct r; cbn [set_text]; try discriminate;
    intros H; injection H as <-; repeat split; auto.
Qed.

Lemma store_update_stems (p r : jsval) (filters : list filter) (rows : list Row) :
  forall rows1,
    store_update [("processed", JBool true); ("prompt", p); ("response", r)]
      filters rows = Some rows1 ->
    stems_from rows rows1.
Proof.
  induction rows as [| x rest IH]; intros rows1; cbn [store_update].
  - intros H. injection H as <-. apply stems_from_refl.
  - destruct (passes filters x).
    + destruct (set_columns _ x) as [x1 |] eqn:Hset; [| discriminate].
      destruct (store_update _ filters rest) as [rest1 |]; [| discriminate].
      intros H. injection H as <-. intros y [<- | Hy].
      * exists x. split; [left; reflexivity |].
        apply (set_columns_identity p r). exact Hset.
      * destruct (IH rest1 eq_refl y Hy) as (x0 & Hx0 & Hid).
        exists x0. split; [right; exact Hx0 | exact Hid].
    + destruct (store_update _ filters rest) as [rest1 |]; [| discriminate].
      intros H. injection H as <-. intros y [<- | Hy].
      * exists x. split; [left; reflexivity | apply same_identity_refl].
      * destruct (IH rest1 eq_refl y Hy) as (x0 & Hx0 & Hid).
        exists x0. split; [right; exact Hx0 | exact Hid].
Qed.

(** One call on the table: a select, a read or a request leaves it as it
    is, a delete removes rows, an update of an entry rewrites rows. *)
Lemma backend_step_stems (sv : Services) (c : call) (rows : list Row) :
  (is_update c = true -> marks_processed c) ->
  stems_from rows (snd (backend sv c rows)).
Proof.
  intros Hupd. destruct c; cbn [backend snd].
  - apply stems_from_refl.
  - destruct (failing sv _); cbn [snd]; [apply stems_from_refl |].
    intros y Hy. apply filter_In in Hy. destruct Hy as [Hy _].
    exists y. split; [exact Hy | apply same_identity_refl].
  - destruct (failing sv _); cbn [snd]; [apply stems_from_refl |].
    destruct (Hupd eq_refl) as (i & p & r & Heq).
    unfold update_of in Heq. injection Heq as -> -> ->.
    destruct (store_update _ _ rows) as [rows1 |] eqn:Hstore; cbn [snd].
    + apply (store_update_stems p r _ rows rows1 Hstore).
    + apply stems_from_refl.
  - apply stems_from_refl.
  - apply stems_from_refl.
  - apply stems_from_refl.
Qed.

(** X20: on the reference model of the table, whatever the completions
    endpoint answers and whichever store calls fail, an invocation creates no
    row and leaves the id, the project and the creation date of every row it
    keeps as they were; a row that was processed stays processed. *)
Theorem invocation_keeps_row_identity (sv : Services) (req : NextApiRequest)
    (rows : list Row) :
  stems_from rows (final_state (backend sv) (handler req) rows).
Proof.
  apply (run_invariant (backend sv) (stems_from rows)
           (fun c => is_update c = true -> marks_processed c)).
  - intros c s Hc Hs. apply (stems_from_trans rows s); [exact Hs |].
    apply backend_step_stems. exact Hc.
  - apply stems_from_refl.
  - intros e He. apply (handler_writes_justified (backend sv) req rows e He).
Qed.

(** X21: on the reference model of the table, when the delete of the
    eviction does not fail, no row with the id of an overflowing fetched
    record is left at the end of the run, whatever the completions endpoint
    answers. *)
Theorem evicted_rows_are_gone (sv : Services) (rows : list Row) (projectId : string)
    (queries : list QueryStatData) (q : QueryStatData) :
  fst (backend sv (select_unprocessed projectId) rows) = Some queries ->
  In q queries ->
  overflowing maxTokens q = true ->
  failing sv (delete_overflowing queries) = None ->
  forall y,
    In y (final_state (backend sv) (processProjectQueryStats projectId) rows) ->
    row_id y <> id q.
Proof.
  intros Hanswer Hq Hover Hfail.
  assert (Hid := overflowingQueryIds_complete queries q Hq Hover).
  apply (run_establishes (backend sv) (fun table => forall y, In y table -> row_id y <> id q)
           (fun c => is_update c = true -> marks_processed c))
    with (c0 := delete_overflowing queries).
  - intros c s Hc Hs y Hy.
    destruct (backend_step_stems sv c s Hc y Hy) as (x & Hx & Hsame).
    destruct Hsame as (Hrow & _). rewrite <- Hrow. apply Hs. exact Hx.
  - intros s y. unfold delete_overflowing. cbn [backend].
    fold (delete_overflowing queries). rewrite Hfail. cbn [snd].
    unfold store_delete. intros Hy. apply filter_In in Hy. destruct Hy as [_ Hy].
    apply negb_true_iff in Hy.
    cbn [passes forallb holds cell String.eqb Ascii.eqb Bool.eqb same] in Hy.
    rewrite andb_true_r in Hy. intros Heq.
    assert (Hex : existsb (fun s0 => String.eqb (row_id y) s0)
                    (overflowingQueryIds queries) = true).
    { apply existsb_exists. exists (id q). split; [exact Hid |].
      apply String.eqb_eq. exact Heq. }
    congruence.
  - destruct (driver_shape (backend sv) projectId rows)
      as (answer & rest & Heq & Ht & Hshape).
    rewrite Hanswer in Heq. subst answer.
    destruct queries as [| query queries']; [destruct Hq |].
    destruct Hshape as (eviction & byo & res & tail & -> & Hevicted & _).
    rewrite Ht. unfold calls. cbn [map call_of]. rewrite map_app.
    right. apply in_or_app. left.
    destruct Hevicted as [[Hnone _] | [_ [r ->]]].
    + rewrite Hnone in Hid. destruct Hid.
    + left. reflexivity.
  - intros e He.
    apply (driver_writes_justified (backend sv) projectId rows e He).
Qed.

Lemma entries_of_not_nullish (triples : list (string * string * string)) :
  forallb (fun entry => negb (nullish entry)) (entries_of triples) = true.
Proof.
  induction triples as [| t rest IH]; [reflexivity |]. cbn. exact IH.
Qed.

(** The loop over well-formed entries, on a table whose calls do not fail. *)
Lemma for_entries_backend (sv : Services) (triples : list (string * string * string)) :
  (forall c, failing sv c = None) ->
  forall rows,
    final_state (backend sv) (for_entries (entries_of triples)) rows
    = anonymize_all triples rows.
Proof.
  intros Hfail. unfold final_state.
  induction triples as [| [[i p] r] rest IH]; intros rows; [reflexivity |].
  cbn [entries_of map fst snd for_entries get_member entry_of lookup_member
       String.eqb Ascii.eqb Bool.eqb lift bind await update_of run backend].
  rewrite Hfail, store_update_entry.
  specialize (IH (map (anonymized i p r) rows)).
  unfold entries_of in IH.
  destruct (run (backend sv) (for_entries _) (map (anonymized i p r) rows))
    as [[t s2] o].
  exact IH.
Qed.

Lemma backend_final_state_all (sv : Services) (rows : list Row) (projectId : string)
    (json : CompletionsJson) (triples : list (string * string * string)) :
  (forall c, failing sv c = None) ->
  (forall url authorization payload,
      completions sv url authorization payload = Returned json) ->
  truthy (error json) = false ->
  JSON_parse (completion_text json) = Some (JArr (entries_of triples)) ->
  let queries :=
    store_select
      [FMatch [("project_id", JStr projectId); ("processed", JBool false)]] 10 rows in
  queries <> [] ->
  final_state (backend sv) (processProjectQueryStats projectId) rows
  = anonymize_all triples
      (if (0 <? List.length (overflowingQueryIds queries))%nat
       then store_delete [FIn "id" (overflowingQueryIds queries)] rows
       else rows).
Proof.
  intros Hfail Hreply Herr Hparse queries Hsome.
  unfold final_state, processProjectQueryStats.
  cbn [await bind run backend]. rewrite Hfail.
  fold queries. destruct queries as [| query rest] eqn:Hqueries; [congruence |].
  rewrite <- Hqueries. clear Hqueries Hsome query rest. clearbody queries.
  unfold completion_text in Hparse.
  assert (Hupdate : forall rows0 : list Row,
             snd (fst (run (backend sv)
                         (parse_and_update (getCompletionsResponseText json gpt_3_5_turbo))
                         rows0))
             = anonymize_all triples rows0).
  { intros rows0. unfold parse_and_update. rewrite Hparse.
    cbn [bind lift length_member iterate].
    rewrite run_try_catch, run_bind.
    assert (Hstate := for_entries_backend sv triples Hfail rows0).
    destruct (for_entries_run (backend sv) (entries_of triples) rows0) as [_ Hres].
    rewrite entries_of_not_nullish in Hres.
    unfold final_state in Hstate.
    destruct (run (backend sv) (for_entries (entries_of triples)) rows0)
      as [[t s2] o].
    cbn [fst snd] in Hstate, Hres. subst o. cbn [run fst snd]. exact Hstate. }
  destruct (0 <? List.length (overflowingQueryIds queries))%nat;
    cbn [bind run backend]; rewrite ?Hfail; cbn [bind run backend];
    rewrite Hreply; cbn [lift bind]; rewrite Herr; cbn [run backend];
    match goal with
    | |- context [run (backend sv) (parse_and_update ?text) ?rows0] =>
        specialize (Hupdate rows0);
        destruct (run (backend sv) (parse_and_update text) rows0) as [[t s2] o]
    end;
    exact Hupdate.
Qed.

Lemma anonymized_id (i p r : string) (x : Row) :
  row_id (anonymized i p r x) = row_id x.
Proof. unfold anonymized. destruct (String.eqb (row_id x) i); reflexivity. Qed.

Lemma anonymized_processed (i p r : string) (x : Row) :
  row_processed x = true -> row_processed (anonymized i p r x) = true.
Proof. unfold anonymized. destruct (String.eqb (row_id x) i); auto. Qed.

Lemma anonymize_all_keeps (triples : list (string * string * string)) :
  forall rows y,
    In y (anonymize_all triples rows) ->
    exists x, In x rows /\ row_id x = row_id y /\
              (row_processed x = true -> row_processed y = true).
Proof.
  unfold anonymize_all.
  induction triples as [| [[i p] r] rest IH]; intros rows y Hy; cbn [fold_left] in Hy.
  - exists y. repeat split; auto.
  - destruct (IH _ y Hy) as (x1 & Hx1 & Hid & Hproc).
    apply in_map_iff in Hx1. destruct Hx1 as (x & <- & Hx).
    cbn [fst snd] in *. exists x. split; [exact Hx |].
    rewrite anonymized_id in Hid. split; [exact Hid |].
    intros Hp. apply Hproc. apply anonymized_processed. exact Hp.
Qed.

(** X22: on the reference model of the table, when no store call fails and
    the completion text parses to well-formed entries, every row left at the
    end whose id an entry names is processed, and every row that the eviction
    kept and that no entry names is left exactly as it was. *)
Theorem named_rows_end_processed (sv : Services) (rows : list Row)
    (projectId : string) (json : CompletionsJson)
    (triples : list (string * string * string)) :
  (forall c, failing sv c = None) ->
  (forall url authorization payload,
      completions sv url authorization payload = Returned json) ->
  truthy (error json) = false ->
  JSON_parse (completion_text json) = Some (JArr (entries_of triples)) ->
  store_select
    [FMatch [("project_id", JStr projectId); ("processed", JBool false)]] 10 rows
    <> [] ->
  (forall y,
      In y (final_state (backend sv) (processProjectQueryStats projectId) rows) ->
      In (row_id y) (named_ids triples) ->
      row_processed y = true) /\
  (forall x,
      In x (if (0 <? List.length
                       (overflowingQueryIds
                          (store_select
                             [FMatch [("project_id", JStr projectId);
                                      ("processed", JBool false)]] 10 rows)))%nat
            then store_delete
                   [FIn "id"
                      (overflowingQueryIds
                         (store_select
                            [FMatch [("project_id", JStr projectId);
                                     ("processed", JBool false)]] 10 rows))] rows
            else rows) ->
      ~ In (row_id x) (named_ids triples) ->
      In x (final_state (backend sv) (processProjectQueryStats projectId) rows)).
Proof.
  intros Hfail Hreply Herr Hparse Hsome.
  rewrite (backend_final_state_all sv rows projectId json triples
             Hfail Hreply Herr Hparse Hsome).
  clear Hparse.
  match goal with
  | |- context [anonymize_all triples ?kept] => generalize kept
  end.
  unfold anonymize_all, named_ids.
  induction triples as [| [[i p] r] rest IH]; intros kept; cbn [fold_left map fst snd].
  - split; [intros y _ [] | intros x Hx _; exact Hx].
  - destruct (IH (map (anonymized i p r) kept)) as [IHnamed IHother].
    split.
    + intros y Hy [Hi | Hrest]; [| apply IHnamed; assumption].
      destruct (anonymize_all_keeps rest _ y Hy) as (x1 & Hx1 & Hid & Hproc).
      apply Hproc. apply in_map_iff in Hx1. destruct Hx1 as (x & <- & Hx).
      rewrite anonymized_id in Hid. unfold anonymized.
      assert (Heqb : String.eqb (row_id x) i = true).
      { apply String.eqb_eq. congruence. }
      rewrite Heqb. reflexivity.
    + intros x Hx Hnot. apply IHother.
      * apply in_map_iff. exists x. split; [| exact Hx].
        unfold anonymized.
        destruct (String.eqb (row_id x) i) eqn:Heqb; [| reflexivity].
        exfalso. apply Hnot. left. apply String.eqb_eq in Heqb. congruence.
      * intros Hin. apply Hnot. right. exact Hin.
Qed.

End MoreStoreFacts.

(** ** The facts at the concrete instance *)

#[local] Existing Instance example_imports.
#[local] Existing Instance example_runtime.

(** C1, as stated, fails: with the overflowing record fetched first, the trim
    stops at it and the request submits the empty batch, which is not the
    longest prefix of the records that remain after the eviction (here the
    record a, whose cost is below the budget). *)
Lemma trim_not_over_remaining :
  In (completions_request None [])
     (calls (transcript (backend (services (Returned (answer_with "[]"))))
               (processProjectQueryStats "p1") [row_big; row_a])) /\
  trimQueries (map to_data [row_big; row_a]) maxTokens = [] /\
  remaining maxTokens (map to_data [row_big; row_a]) = [to_data row_a] /\
  ~ longest_prefix_below
      (trimQueries (map to_data [row_big; row_a]) maxTokens)
      (remaining maxTokens (map to_data [row_big; row_a]))
      maxTokens.
Proof.
  split; [vm_compute; right; right; right; left; reflexivity |].
  split; [vm_compute; reflexivity |]. split; [vm_compute; reflexivity |].
  intros (_ & _ & Hlongest).
  specialize (Hlongest 1%nat).
  assert (Hlen : (1 <= 0)%nat); [| lia].
  apply Hlongest.
  - vm_compute. lia.
  - intros j Hj. assert (j = 1%nat) as -> by (vm_compute in Hj; lia).
    vm_compute. reflexivity.
Qed.

(** C3 at the records a, z, a, big, z. *)
Lemma trimQueries_below_budget_witness :
  total_cost (trimQueries (map to_data [row_a; row_z; row_a; row_big; row_z]) maxTokens)
    < maxTokens /\
  stays_below (trimQueries (map to_data [row_a; row_z; row_a; row_big; row_z]) maxTokens)
    maxTokens.
Proof.
  apply (trimQueries_below_budget
           (map to_data [row_a; row_z; row_a; row_big; row_z]) maxTokens).
  vm_compute. reflexivity.
Defined.

(** C2, as stated, fails: the only record fetched overflows, so the batch is
    empty after the trim, and the driver still calls the completions endpoint
    (with a prompt around the empty list) instead of returning at once. *)
Lemma empty_batch_still_requested :
  trimQueries (store_select
                 [FMatch [("project_id", JStr "p1"); ("processed", JBool false)]]
                 10 [row_big])
              maxTokens = [] /\
  existsb is_fetch
    (calls (transcript (backend (services (Returned (answer_with "[]"))))
              (processProjectQueryStats "p1") [row_big])) = true /\
  In (completions_request None [])
     (calls (transcript (backend (services (Returned (answer_with "[]"))))
               (processProjectQueryStats "p1") [row_big])).
Proof.
  split; [vm_compute; reflexivity |]. split; [vm_compute; reflexivity |].
  vm_compute. right. right. right. left. reflexivity.
Qed.

(** C2 (amended) at a table with nothing to process for the project. *)
Lemma nothing_fetched_returns_0_witness :
  result (backend (services (Returned (answer_with "[]"))))
    (processProjectQueryStats "p3") [row_a; row_z] = Returned 0%nat /\
  calls (transcript (backend (services (Returned (answer_with "[]"))))
           (processProjectQueryStats "p3") [row_a; row_z])
    = [select_unprocessed "p3"] /\
  existsb is_fetch
    (calls (transcript (backend (services (Returned (answer_with "[]"))))
              (processProjectQueryStats "p3") [row_a; row_z])) = false.
Proof.
  apply (nothing_fetched_returns_0
           (backend (services (Returned (answer_with "[]")))) "p3" [row_a; row_z]).
  right. vm_compute. reflexivity.
Defined.

Lemma example_estimate_nonneg (text : string) :
  0 <= approximatedTokenCount text.
Proof. unfold approximatedTokenCount, example_imports, Qle. simpl. lia. Qed.

(** C4 at the table a, big, z: the record big overflows. *)
Lemma overflowing_record_evicted_witness :
  ~ In (to_data row_big) (trimQueries (map to_data [row_a; row_big]) maxTokens) /\
  In "big" (overflowingQueryIds (map to_data [row_a; row_big])) /\
  In (SupabaseDelete query_stats
        [FIn "id" (overflowingQueryIds (map to_data [row_a; row_big]))])
     (calls (transcript (backend (services (Returned (answer_with "[a]"))))
               (processProjectQueryStats "p1") [row_a; row_big; row_z])) /\
  exists byo,
    In (completions_request byo (trimQueries (map to_data [row_a; row_big]) maxTokens))
       (calls (transcript (backend (services (Returned (answer_with "[a]"))))
                 (processProjectQueryStats "p1") [row_a; row_big; row_z])).
Proof.
  apply (overflowing_record_evicted
           (backend (services (Returned (answer_with "[a]")))) "p1"
           [row_a; row_big; row_z] (map to_data [row_a; row_big]) (to_data row_big)).
  - exact example_estimate_nonneg.
  - vm_compute. reflexivity.
  - right. left. reflexivity.
  - vm_compute. reflexivity.
Defined.

(** C5, as stated, fails: the completion text parses to an array of one
    entry, which is null; reading its id raises inside the [try] block, so no
    update is issued and the driver returns 0, not 1. *)
Lemma null_entry_returns_0 :
  JSON_parse (completion_text (answer_with "[null]")) = Some (JArr [JNull]) /\
  result (backend (services (Returned (answer_with "[null]"))))
    (processProjectQueryStats "p1") [row_a; row_big; row_z] = Returned 0%nat /\
  updates_of (transcript (backend (services (Returned (answer_with "[null]"))))
                (processProjectQueryStats "p1") [row_a; row_big; row_z]) = [].
Proof. repeat split; vm_compute; reflexivity. Qed.

(** C5 (amended) at an answer of three entries where the store fails the
    update of b: three updates are issued, the count is 3, and the rows a
    and c are processed while b is not. *)
Lemma parsed_array_updates_each_entry_witness :
  (updates_of (transcript
                 (backend (services_failing (Returned (answer_with "[a,b,c]")) "b"))
                 (processProjectQueryStats "p1") [row_a; row_b; row_c])
     = map entry_update [scrubbed_a; scrubbed_b; scrubbed_c] /\
   result (backend (services_failing (Returned (answer_with "[a,b,c]")) "b"))
     (processProjectQueryStats "p1") [row_a; row_b; row_c] = Returned 3%nat) /\
  map (fun x => (row_id x, row_processed x))
      (final_state (backend (services_failing (Returned (answer_with "[a,b,c]")) "b"))
         (processProjectQueryStats "p1") [row_a; row_b; row_c])
    = [("a", true); ("b", false); ("c", true)].
Proof.
  split; [| vm_compute; reflexivity].
  apply (parsed_array_updates_each_entry
           (backend (services_failing (Returned (answer_with "[a,b,c]")) "b")) "p1"
           [row_a; row_b; row_c]
           (Event (completions_request None (map to_data [row_a; row_b; row_c]))
                  (Returned (answer_with "[a,b,c]")))
           (answer_with "[a,b,c]") [scrubbed_a; scrubbed_b; scrubbed_c]).
  - vm_compute. right. right. left. reflexivity.
  - reflexivity.
  - reflexivity.
  - vm_compute. reflexivity.
  - reflexivity.
Defined.

(** C6, as stated, fails for a transport error: when the request rejects, the
    driver does not return 0, it rejects. *)
Lemma rejected_request_rejects :
  fetch_answer
    (Event (completions_request None
              (trimQueries (map to_data [row_a; row_big]) maxTokens))
           (Raised NetworkError)) = Some (Raised NetworkError) /\
  In (Event (completions_request None
               (trimQueries (map to_data [row_a; row_big]) maxTokens))
            (Raised NetworkError))
     (transcript (backend (services (Raised NetworkError)))
        (processProjectQueryStats "p1") [row_a; row_big; row_z]) /\
  result (backend (services (Raised NetworkError)))
    (processProjectQueryStats "p1") [row_a; row_big; row_z] = Raised NetworkError /\
  result (backend (services (Raised NetworkError)))
    (processProjectQueryStats "p1") [row_a; row_big; row_z] <> Returned 0%nat.
Proof.
  split; [reflexivity |].
  split; [vm_compute; right; right; right; left; reflexivity |].
  split; [vm_compute; reflexivity |].
  vm_compute. discriminate.
Qed.

(** C6 (amended) at an answer that carries an error. *)
Lemma failed_completion_updates_nothing_witness :
  truthy (error answer_error) = true /\
  updates_of (transcript (backend (services (Returned answer_error)))
                (processProjectQueryStats "p1") [row_a; row_big; row_z]) = [] /\
  result (backend (services (Returned answer_error)))
    (processProjectQueryStats "p1") [row_a; row_big; row_z] = Returned 0%nat.
Proof.
  split; [reflexivity |].
  apply (failed_completion_updates_nothing
           (backend (services (Returned answer_error))) "p1"
           [row_a; row_big; row_z]
           (Event (completions_request None
                     (trimQueries (map to_data [row_a; row_big]) maxTokens))
                  (Returned answer_error))
           (Returned answer_error)).
  - vm_compute. right. right. right. left. reflexivity.
  - reflexivity.
  - left. reflexivity.
Defined.

(** C8 at an answer whose completion text is not JSON. *)
Lemma usage_recorded_before_parsing_witness :
  JSON_parse (completion_text (answer_with "Sorry, I cannot help with that."))
    = None /\
  exists (front after : list call) (byo : option string)
         (queries : list QueryStatData),
    calls (transcript
             (backend (services (Returned (answer_with "Sorry, I cannot help with that."))))
             (processProjectQueryStats "p1") [row_a; row_big; row_z])
      = (front
         ++ completions_request byo (trimQueries queries maxTokens)
         :: RecordProjectTokenCount "p1" (geLLMInfoFromModel gpt_3_5_turbo)
              (safeParseInt
                 (usage_total_tokens (answer_with "Sorry, I cannot help with that.")) 0)
              "query-stats"
         :: after)%list /\
    List.filter is_update front = [] /\
    forallb is_update after = true /\
    (JSON_parse (completion_text (answer_with "Sorry, I cannot help with that."))
       = None -> after = []).
Proof.
  split; [vm_compute; reflexivity |].
  apply (usage_recorded_before_parsing
           (backend (services (Returned (answer_with "Sorry, I cannot help with that."))))
           "p1" [row_a; row_big; row_z]
           (Event (completions_request None
                     (trimQueries (map to_data [row_a; row_big]) maxTokens))
                  (Returned (answer_with "Sorry, I cannot help with that.")))
           (answer_with "Sorry, I cannot help with that.")).
  - vm_compute. right. right. right. left. reflexivity.
  - reflexivity.
  - reflexivity.
Defined.

(** C7 at the answer that names the row z of another project: the row was
    not fetched for p1, and it ends up processed with the returned texts. *)
Lemma updates_match_by_id_alone_witness :
  row_project_id row_z <> "p1" /\
  ~ In (to_data row_z)
       (store_select
          [FMatch [("project_id", JStr "p1"); ("processed", JBool false)]] 10
          [row_a; row_big; row_z]) /\
  In {| row_id := "z"; row_project_id := "p2";
        row_prompt := Some "redacted"; row_response := Some "removed";
        row_processed := true; row_created_at := "2023-06-03" |}
     (final_state (backend (services (Returned (answer_with "[z]"))))
        (processProjectQueryStats "p1") [row_a; row_big; row_z]).
Proof.
  split; [discriminate |].
  split; [vm_compute; intros [H | [H | []]]; discriminate H |].
  apply (proj2 updates_match_by_id_alone
           (services (Returned (answer_with "[z]"))) [row_a; row_big; row_z] "p1"
           (answer_with "[z]") "z" "redacted" "removed" row_z).
  - intros c. reflexivity.
  - intros url authorization payload. reflexivity.
  - reflexivity.
  - vm_compute. reflexivity.
  - vm_compute. discriminate.
  - right. right. left. reflexivity.
  - reflexivity.
  - vm_compute. intros [H | []]. discriminate H.
Defined.

(** C9 at a GET request for the project p1: the delete of the record big. *)
Lemma only_evictions_and_processed_true_witness :
  exists e' queries,
    In e' (transcript (backend (services (Returned (answer_with "[a]"))))
             (handler {| method := Some "GET"; query_projectId := Some "p1" |})
             [row_a; row_big; row_z]) /\
    select_answer e' = Some (Some queries) /\
    query_stats = query_stats /\
    [FIn "id" ["big"]] = [FIn "id" (overflowingQueryIds queries)] /\
    forall i, In i (overflowingQueryIds queries) ->
              exists q, In q queries /\ id q = i /\
                        maxTokens < estimateQueryTokenCount q.
Proof.
  assert (Hin : In (Event (SupabaseDelete query_stats [FIn "id" ["big"]]) None)
                   (transcript (backend (services (Returned (answer_with "[a]"))))
                      (handler {| method := Some "GET"; query_projectId := Some "p1" |})
                      [row_a; row_big; row_z])).
  { vm_compute. right. left. reflexivity. }
  apply (proj1 (only_evictions_and_processed_true
                  (backend (services (Returned (answer_with "[a]"))))
                  {| method := Some "GET"; query_projectId := Some "p1" |}
                  [row_a; row_big; row_z]
                  (Event (SupabaseDelete query_stats [FIn "id" ["big"]]) None)
                  Hin)
               query_stats [FIn "id" ["big"]]).
  reflexivity.
Defined.

(** ** The further facts at the concrete instance *)

(** X2 at the budgets 24 and 64. *)
Lemma trimQueries_monotone_witness :
  exists k,
    trimQueries (map to_data [row_a; row_z; row_a; row_big]) 24
    = firstn k (trimQueries (map to_data [row_a; row_z; row_a; row_big]) 64).
Proof.
  apply (trimQueries_monotone (map to_data [row_a; row_z; row_a; row_big]) 24 64).
  vm_compute. discriminate.
Defined.

(** X3 at the records a, b, c. *)
Lemma trimQueries_all_fit_witness :
  trimQueries (map to_data [row_a; row_b; row_c]) maxTokens
  = map to_data [row_a; row_b; row_c].
Proof.
  apply (trimQueries_all_fit (map to_data [row_a; row_b; row_c]) maxTokens).
  - exact example_estimate_nonneg.
  - vm_compute. reflexivity.
Defined.

(** X4 at the record e, whose estimate is 64. *)
Lemma record_at_budget_kept_and_blocking_witness :
  overflowing maxTokens (to_data row_edge) = false /\
  trimQueries (to_data row_edge :: map to_data [row_a]) maxTokens = [].
Proof.
  apply (record_at_budget_kept_and_blocking (to_data row_edge)
           (map to_data [row_a]) maxTokens).
  vm_compute. reflexivity.
Defined.

(** X5 at the records a, big, b. *)
Lemma overflowing_record_blocks_the_rest_witness :
  exists k, (k <= List.length (map to_data [row_a]))%nat /\
            trimQueries (map to_data [row_a] ++ to_data row_big :: map to_data [row_b])
              maxTokens
            = firstn k (map to_data [row_a]).
Proof.
  apply (overflowing_record_blocks_the_rest (map to_data [row_a])
           (map to_data [row_b]) (to_data row_big)).
  - exact example_estimate_nonneg.
  - vm_compute. reflexivity.
Defined.

(** X8 at a completion text that is an object. *)
Lemma not_iterable_updates_nothing_witness :
  updates_of
    (transcript (backend (services (Returned (answer_with "{}"))))
       (@processProjectQueryStats example_imports example_runtime_loose "p1")
       [row_a; row_b; row_c]) = [] /\
  result (backend (services (Returned (answer_with "{}"))))
    (@processProjectQueryStats example_imports example_runtime_loose "p1")
    [row_a; row_b; row_c] = Returned 0%nat.
Proof.
  apply (@not_iterable_updates_nothing example_imports example_runtime_loose _
           (backend (services (Returned (answer_with "{}")))) "p1"
           [row_a; row_b; row_c]
           (Event (@completions_request example_imports example_runtime_loose None
                     (map to_data [row_a; row_b; row_c]))
                  (Returned (answer_with "{}")))
           (answer_with "{}") (JObj [])).
  - vm_compute. right. right. left. reflexivity.
  - reflexivity.
  - reflexivity.
  - vm_compute. reflexivity.
  - reflexivity.
Defined.

(** X9 at a completion text whose second entry is null. *)
Lemma null_entry_stops_the_updates_witness :
  updates_of
    (transcript (backend (services (Returned (answer_with "[a,null,c]"))))
       (@processProjectQueryStats example_imports example_runtime_loose "p1")
       [row_a; row_b; row_c]) = map entry_update [scrubbed_a] /\
  result (backend (services (Returned (answer_with "[a,null,c]"))))
    (@processProjectQueryStats example_imports example_runtime_loose "p1")
    [row_a; row_b; row_c] = Returned 0%nat.
Proof.
  apply (@null_entry_stops_the_updates example_imports example_runtime_loose _
           (backend (services (Returned (answer_with "[a,null,c]")))) "p1"
           [row_a; row_b; row_c]
           (Event (@completions_request example_imports example_runtime_loose None
                     (map to_data [row_a; row_b; row_c]))
                  (Returned (answer_with "[a,null,c]")))
           (answer_with "[a,null,c]") [scrubbed_a] [scrubbed_c]).
  - vm_compute. right. right. left. reflexivity.
  - reflexivity.
  - reflexivity.
  - vm_compute. reflexivity.
  - reflexivity.
Defined.

(** X10 at the table a, big, z. *)
Lemma driver_call_sequence_witness :
  exists (byo : option string) (tail : list call),
    calls (transcript (backend (services (Returned (answer_with "[a]"))))
             (processProjectQueryStats "p1") [row_a; row_big; row_z])
      = (select_unprocessed "p1"
         :: (if (0 <? List.length (overflowingQueryIds (map to_data [row_a; row_big])))%nat
             then [delete_overflowing (map to_data [row_a; row_big])] else [])
         ++ GetProjectConfigData "p1"
         :: completions_request byo
              (trimQueries (map to_data [row_a; row_big]) maxTokens)
         :: tail)%list /\
    List.filter (fun c => is_fetch c || is_delete c) tail = [].
Proof.
  apply (driver_call_sequence (backend (services (Returned (answer_with "[a]"))))
           "p1" [row_a; row_big; row_z] (map to_data [row_a; row_big])).
  - vm_compute. reflexivity.
  - discriminate.
Defined.

(** X11 at an answer that carries an error. *)
Lemma no_usage_recorded_on_error_witness :
  List.filter is_record
    (calls (transcript (backend (services (Returned answer_error)))
              (processProjectQueryStats "p1") [row_a; row_big; row_z])) = [].
Proof.
  apply (no_usage_recorded_on_error (backend (services (Returned answer_error)))
           "p1" [row_a; row_big; row_z]
           (Event (completions_request None
                     (trimQueries (map to_data [row_a; row_big]) maxTokens))
                  (Returned answer_error))
           (Returned answer_error)).
  - vm_compute. right. right. right. left. reflexivity.
  - reflexivity.
  - reflexivity.
Defined.


(** X13 at a project with a key of its own. *)
Lemma request_uses_project_key_first_witness :
  bearer (Some "sk-project") OPENAI_API_KEY = "Bearer sk-project" /\
  exists payload,
    In (Fetch (getCompletionsUrl gpt_3_5_turbo)
          (bearer (Some "sk-project") OPENAI_API_KEY) payload)
       (calls (transcript
                 (backend (services_keyed (Returned (answer_with "[a]")) "sk-project"))
                 (processProjectQueryStats "p1") [row_a; row_b; row_c])).
Proof.
  split; [reflexivity |].
  apply (request_uses_project_key_first
           (backend (services_keyed (Returned (answer_with "[a]")) "sk-project"))
           "p1" [row_a; row_b; row_c]
           (Event (GetProjectConfigData "p1") (Some "sk-project"))).
  - vm_compute. right. left. reflexivity.
  - reflexivity.
Defined.


(** X15 at a GET request for the project p1. *)
Lemma handler_single_project_witness :
  transcript (backend (services (Returned (answer_with "[a]"))))
    (handler {| method := Some "GET"; query_projectId := Some "p1" |})
    [row_a; row_big; row_z]
  = transcript (backend (services (Returned (answer_with "[a]"))))
      (processProjectQueryStats "p1") [row_a; row_big; row_z] /\
  result (backend (services (Returned (answer_with "[a]"))))
    (handler {| method := Some "GET"; query_projectId := Some "p1" |})
    [row_a; row_big; row_z]
  = match result (backend (services (Returned (answer_with "[a]"))))
            (processProjectQueryStats "p1") [row_a; row_big; row_z] with
    | Returned processed => Returned (ok processed)
    | Raised x => Raised x
    end.
Proof.
  apply (handler_single_project (backend (services (Returned (answer_with "[a]"))))
           {| method := Some "GET"; query_projectId := Some "p1" |}
           [row_a; row_big; row_z]); reflexivity.
Defined.


(** X18 at a request that rejects for the first of two projects. *)
Lemma rejection_ends_the_invocation_witness :
  result (backend (services (Raised NetworkError)))
    (handler {| method := Some "GET"; query_projectId := None |})
    [row_a; row_z] = Raised NetworkError /\
  calls (transcript (backend (services (Raised NetworkError)))
           (handler {| method := Some "GET"; query_projectId := None |})
           [row_a; row_z])
  = select_project_ids
    :: calls (transcript (backend (services (Raised NetworkError)))
                (processProjectQueryStats (nullish_empty (Some "p1")))
                (snd (backend (services (Raised NetworkError)) select_project_ids
                        [row_a; row_z]))).
Proof.
  apply (rejection_ends_the_invocation (backend (services (Raised NetworkError)))
           {| method := Some "GET"; query_projectId := None |}
           [row_a; row_z] (Some "p1") [Some "p2"] NetworkError).
  - reflexivity.
  - reflexivity.
  - vm_compute. reflexivity.
  - reflexivity.
  - vm_compute. reflexivity.
Defined.

(** X21 at the table a, big, z: no row big is left. *)
Lemma evicted_rows_are_gone_witness :
  forallb (fun y => negb (String.eqb (row_id y) "big"))
    (final_state (backend (services (Returned (answer_with "[a]"))))
       (processProjectQueryStats "p1") [row_a; row_big; row_z]) = true.
Proof.
  apply forallb_forall. intros y Hy. apply negb_true_iff. apply String.eqb_neq.
  apply (evicted_rows_are_gone (services (Returned (answer_with "[a]")))
           [row_a; row_big; row_z] "p1" (map to_data [row_a; row_big])
           (to_data row_big)).
  - vm_compute. reflexivity.
  - right. left. reflexivity.
  - vm_compute. reflexivity.
  - reflexivity.
  - exact Hy.
Defined.

(** X6 at the batch of the records a, z, a, big. *)
Lemma batch_members_below_budget_witness :
  estimateQueryTokenCount (to_data row_z) < maxTokens.
Proof.
  apply (batch_members_below_budget (map to_data [row_a; row_z; row_a; row_big])
           maxTokens (to_data row_z)).
  - exact example_estimate_nonneg.
  - vm_compute. right. left. reflexivity.
Defined.

(** X19 at a table where everything is processed already. *)
Lemma nothing_to_do_answers_0_witness :
  result (backend (services (Returned (answer_with "[a]"))))
    (handler {| method := Some "GET"; query_projectId := None |}) []
  = Returned (ok 0) /\
  calls (transcript (backend (services (Returned (answer_with "[a]"))))
           (handler {| method := Some "GET"; query_projectId := None |}) [])
  = [select_project_ids].
Proof.
  apply (nothing_to_do_answers_0 (backend (services (Returned (answer_with "[a]"))))
           {| method := Some "GET"; query_projectId := None |} []).
  - reflexivity.
  - reflexivity.
  - right. reflexivity.
Defined.

(** X22 at an answer with an entry for each of the records a, b and c, with
    the row z of another project in the table. *)
Lemma named_rows_end_processed_witness :
  map (fun y => (row_id y, row_processed y))
      (final_state (backend (services (Returned (answer_with "[a,b,c]"))))
         (processProjectQueryStats "p1") [row_a; row_b; row_c; row_z])
    = [("a", true); ("b", true); ("c", true); ("z", false)] /\
  (forall y,
      In y (final_state (backend (services (Returned (answer_with "[a,b,c]"))))
              (processProjectQueryStats "p1") [row_a; row_b; row_c; row_z]) ->
      In (row_id y) ["a"; "b"; "c"] ->
      row_processed y = true) /\
  In row_z (final_state (backend (services (Returned (answer_with "[a,b,c]"))))
              (processProjectQueryStats "p1") [row_a; row_b; row_c; row_z]).
Proof.
  split; [vm_compute; reflexivity |].
  assert (H := named_rows_end_processed
                 (services (Returned (answer_with "[a,b,c]")))
                 [row_a; row_b; row_c; row_z] "p1" (answer_with "[a,b,c]")
                 [("a", "hello", "hi"); ("b", "where is my order", "on its way");
                  ("c", "thanks", "welcome")]
                 (fun _ => eq_refl) (fun _ _ _ => eq_refl) eq_refl eq_refl).
  destruct H as [Hnamed Hother].
  - vm_compute. discriminate.
  - split; [exact Hnamed |].
    apply Hother.
    + vm_compute. right. right. right. left. reflexivity.
    + vm_compute. intros [H | [H | [H | []]]]; discriminate H.
Defined.
